(** * Grid-world MDP (Robot_cls.py) and tabular Q-learning (q_learning.py)

    A shallow embedding of the [Robot] class and of the learning loop, and
    the properties of the transition and reward tables built by
    [Robot.__init__].

    Conventions of the embedding.
    - Python integers (states, actions, coordinates, loop counters) are [Z].
    - Cell labels are [string]; rewards and action values are IEEE doubles
      ([PrimFloat.float]); they are only stored, looked up and compared here.
    - A Python exception is a value of [exception]; a call that may raise
      returns a [result].
    - A 2-D numpy array is its shape and its row-major (C order) data.
    - A [dict] is a [gmap]; a Python list is a [list].
    - A [for] loop over a list is a fold that stops at the first exception;
      the [while] loop of [q_learning] takes fuel.

    The rendering and the entry point of q_learning_main.py, which draw
    with svgwrite and print, are not part of the embedding. *)

From Stdlib Require Import ZArith Lia List String PrimFloat.
From stdpp Require Import gmap strings list.

Local Open Scope Z_scope.

(** ** Exceptions and results *)

Inductive key : Type :=
| StrKey (s : string)
| IntKey (z : Z).

Inductive exception : Type :=
| ValueError (msg : string)
| KeyError (k : key)
| IndexError
| PathNotFoundError.

Inductive result (A : Type) : Type :=
| Ok (a : A)
| Raise (e : exception).

Arguments Ok {A} a.
Arguments Raise {A} e.

#[global] Instance result_ret : MRet result := fun _ a => Ok a.
#[global] Instance result_bind : MBind result :=
  fun _ _ f m => match m with Ok a => f a | Raise e => Raise e end.

(** ** The part of numpy that the program uses *)

Module numpy.

(** A 2-D array of labels: [shape = (rows, columns)], data in C order. *)
Record ndarray : Type := { shape : nat * nat; data : list string }.

(** [numpy.array (rows)] on a list of rows of one length. *)
Definition array (rows : list (list string)) : ndarray :=
  {| shape := (length rows, length (hd [] rows)); data := concat rows |}.

(** What every 2-D array satisfies: as many elements as its shape says. *)
Definition wf (w : ndarray) : Prop :=
  length (data w) = ((shape w).1 * (shape w).2)%nat.

(** One index of [w[y, x]] along an axis of length [n]: a negative index
    counts from the end, an index out of range raises [IndexError]. *)
Definition norm_index (i : Z) (n : nat) : result Z :=
  if (0 <=? i) && (i <? Z.of_nat n) then Ok i
  else if (- Z.of_nat n <=? i) && (i <? 0) then Ok (i + Z.of_nat n)
  else Raise IndexError.

(** [w[y, x]] *)
Definition getitem (w : ndarray) (y x : Z) : result string :=
  y' ← norm_index y (shape w).1;
  x' ← norm_index x (shape w).2;
  match data w !! Z.to_nat (y' * Z.of_nat (shape w).2 + x') with
  | Some l => Ok l
  | None => Raise IndexError
  end.

(** [numpy.unravel_index (index, shp, order = "C")] for a scalar index. *)
Definition unravel_index (index : Z) (shp : nat * nat) : result (Z * Z) :=
  if (0 <=? index) && (index <? Z.of_nat shp.1 * Z.of_nat shp.2)
  then Ok (index / Z.of_nat shp.2, index mod Z.of_nat shp.2)
  else Raise (ValueError "index is out of bounds for array").

(** [numpy.ravel_multi_index (mi, shp, order = "C")], default mode "raise". *)
Definition ravel_multi_index (mi : Z * Z) (shp : nat * nat) : result Z :=
  if (0 <=? mi.1) && (mi.1 <? Z.of_nat shp.1) &&
     (0 <=? mi.2) && (mi.2 <? Z.of_nat shp.2)
  then Ok (mi.1 * Z.of_nat shp.2 + mi.2)
  else Raise (ValueError "invalid entry in coordinates array").

End numpy.

Import numpy.

(** ** Robot_cls.py *)

Definition NORTH : Z := 0.
Definition SOUTH : Z := 1.
Definition WEST : Z := 2.
Definition EAST : Z := 3.

(** *** [dict] and [list] accesses that can raise *)

(** [d[k]] for a string key *)
Definition dict_getitem_str {V} (d : gmap string V) (k : string) : result V :=
  match d !! k with
  | Some v => Ok v
  | None => Raise (KeyError (StrKey k))
  end.

(** [d[k]] for an integer key *)
Definition dict_getitem {V} (d : gmap Z V) (k : Z) : result V :=
  match d !! k with
  | Some v => Ok v
  | None => Raise (KeyError (IntKey k))
  end.

(** [d[k1][k2] = v]: the row [d[k1]] is read, then one entry of it is set. *)
Definition dict_setitem2 {V} (d : gmap Z (gmap Z V)) (k1 k2 : Z) (v : V)
  : result (gmap Z (gmap Z V)) :=
  row ← dict_getitem d k1;
  Ok (<[k1 := <[k2 := v]> row]> d).

(** [for x in xs: body], on a state [St], stopping at the first exception. *)
Fixpoint for_ {X St} (xs : list X) (body : St -> X -> result St) (st : St)
  : result St :=
  match xs with
  | [] => Ok st
  | x :: xs' => st' ← body st x; for_ xs' body st'
  end.

(** [range (n)] *)
Definition range (n : Z) : list Z := seqZ 0 n.

Module Robot.

(** [self.A = [NORTH, SOUTH, WEST, EAST]] *)
Definition A : list Z := [NORTH; SOUTH; WEST; EAST].

(** [self.MAX_Y = self.shape[0]], [self.MAX_X = self.shape[1]],
    [self.nSp = self.MAX_X * self.MAX_Y]. The methods below read only
    [self.world] and these, which [__init__] sets before it calls any of
    them, so they take the world. *)
Definition MAX_Y (w : ndarray) : Z := Z.of_nat (shape w).1.
Definition MAX_X (w : ndarray) : Z := Z.of_nat (shape w).2.
Definition nSp (w : ndarray) : Z := MAX_X w * MAX_Y w.

(** [Robot._state2coord]: [(yx[1], yx[0])], that is [(x, y)]. *)
Definition _state2coord (w : ndarray) (state : Z) : result (Z * Z) :=
  yx ← unravel_index state (shape w);
  Ok (yx.2, yx.1).

(** [Robot._coord2state]: the argument is [xy = (x, y)]. *)
Definition _coord2state (w : ndarray) (xy : Z * Z) : result Z :=
  ravel_multi_index (xy.2, xy.1) (shape w).

(** [Robot._is_outside_at] *)
Definition _is_outside_at (w : ndarray) (xy : Z * Z) : bool :=
  let y := xy.2 in
  let x := xy.1 in
  (y <? 0) || (x <? 0) || (y >=? MAX_Y w) || (x >=? MAX_X w).

(** [Robot._is_obstacle_at] *)
Definition _is_obstacle_at (w : ndarray) (xy : Z * Z) : result bool :=
  let y := xy.2 in
  let x := xy.1 in
  l ← getitem w y x;
  Ok (String.eqb l "o").

(** [Robot.is_terminal] *)
Definition is_terminal (w : ndarray) (state : Z) : result bool :=
  '(x, y) ← _state2coord w state;
  l ← getitem w y x;
  Ok (String.eqb l "T").

(** [Robot._is_start] *)
Definition _is_start (w : ndarray) (state : Z) : result bool :=
  '(x, y) ← _state2coord w state;
  l ← getitem w y x;
  Ok (String.eqb l "S").

(** [Robot._update_state]. [xy] is an integer vector; [xy + [dx, dy]] adds
    componentwise. *)
Definition _update_state (w : ndarray) (state action : Z) : result Z :=
  xy ← _state2coord w state;
  new_xy ←
    (if action =? NORTH then Ok (xy.1 + 0, xy.2 + -1)
     else if action =? SOUTH then Ok (xy.1 + 0, xy.2 + 1)
     else if action =? WEST then Ok (xy.1 + -1, xy.2 + 0)
     else if action =? EAST then Ok (xy.1 + 1, xy.2 + 0)
     else Raise (ValueError "Invalid action."));
  if _is_outside_at w new_xy then mret state
  else
    obstacle ← _is_obstacle_at w new_xy;
    if obstacle : bool then mret state
    else _coord2state w new_xy.

(** [Robot._create_example_world] (a static method). *)
Definition _create_example_world (type : string)
  : result (ndarray * gmap string float) :=
  if String.eqb type "4x4_world" then
    let rewards : gmap string float :=
      <["S" := (-1)%float]> (<["." := (-1)%float]> (<["T" := 0%float]> ∅)) in
    let world := numpy.array
      [["S"; "."; "."; "."];
       ["."; "."; "."; "."];
       ["."; "."; "."; "."];
       ["."; "."; "."; "T"]]%string in
    Ok (world, rewards)
  else if String.eqb type "obstacles" then
    let rewards : gmap string float :=
      <["S" := (-1)%float]> (<["o" := (-1)%float]>
        (<["." := (-1)%float]> (<["T" := 0%float]> ∅))) in
    let world := numpy.array
      [["."; "."; "."; "."; "."; "."];
       ["."; "o"; "."; "."; "S"; "."];
       ["."; "o"; "o"; "."; "."; "."];
       ["."; "."; "o"; "."; "."; "."];
       ["."; "."; "o"; "o"; "o"; "o"];
       ["."; "."; "."; "."; "."; "T"]]%string in
    Ok (world, rewards)
  else if String.eqb type "6x6_world_blocked" then
    let rewards : gmap string float :=
      <["S" := (-1)%float]> (<["o" := (-1)%float]>
        (<["." := (-1)%float]> (<["T" := 0%float]> ∅))) in
    let world := numpy.array
      [["T"; "."; "."; "."; "."; "."];
       ["."; "."; "."; "."; "."; "."];
       ["."; "."; "o"; "o"; "o"; "o"];
       ["."; "."; "o"; "."; "."; "."];
       ["."; "."; "o"; "."; "."; "S"];
       ["."; "."; "o"; "."; "."; "."]]%string in
    Ok (world, rewards)
  else if String.eqb type "6x4_world_2" then
    let rewards : gmap string float :=
      <["S" := (-1)%float]> (<["x" := (-5)%float]> (<["o" := (-1)%float]>
        (<["." := (-1)%float]> (<["T" := 0%float]> ∅)))) in
    let world := numpy.array
      [["T"; "."; "."; "."];
       ["x"; "x"; "x"; "x"];
       ["x"; "x"; "."; "x"];
       ["x"; "x"; "."; "x"];
       ["x"; "x"; "."; "x"];
       ["S"; "."; "."; "."]]%string in
    Ok (world, rewards)
  else Raise (ValueError "Invalid example world type").

(** The attributes of a [Robot] object. [shape], [MAX_Y], [MAX_X], [nSp],
    [A] and [nA] are functions of [world] (above); [_current_state] is only
    used by [reset]. *)
Record t : Type := mk {
  world : ndarray;
  rewards : gmap string float;
  S : list Z;
  Sp : list Z;
  S_start : list Z;
  T : gmap Z (gmap Z Z);
  R : gmap Z (gmap Z float)
}.

Definition set_S (self : t) (v : list Z) : t :=
  mk (world self) (rewards self) v (Sp self) (S_start self) (T self) (R self).
Definition set_Sp (self : t) (v : list Z) : t :=
  mk (world self) (rewards self) (S self) v (S_start self) (T self) (R self).
Definition set_S_start (self : t) (v : list Z) : t :=
  mk (world self) (rewards self) (S self) (Sp self) v (T self) (R self).
Definition set_T (self : t) (v : gmap Z (gmap Z Z)) : t :=
  mk (world self) (rewards self) (S self) (Sp self) (S_start self) v (R self).
Definition set_R (self : t) (v : gmap Z (gmap Z float)) : t :=
  mk (world self) (rewards self) (S self) (Sp self) (S_start self) (T self) v.

(** The body of [for action in self.A] in [__init__]. The source has this
    loop twice, once for a terminal [state] and once for the others, with
    the same body: also for a terminal state the new state is
    [self._update_state (state, action)] (the assignment
    [new_state_a = state] is commented out there). *)
Definition init_action (state : Z) (self : t) (action : Z) : result t :=
  new_state_a ← _update_state (world self) state action;
  '(x, y) ← _state2coord (world self) new_state_a;
  label ← getitem (world self) y x;
  reward ← dict_getitem_str (rewards self) label;
  T' ← dict_setitem2 (T self) state action new_state_a;
  let self := set_T self T' in
  R' ← dict_setitem2 (R self) state action reward;
  Ok (set_R self R').

(** The body of [for state in range (self.nSp)] in [__init__].
    [self.T[state] = {a : [] for a in self.A}] creates the row of [state];
    its placeholders [[]] are each overwritten by the loop over the same
    [self.A] before the constructor returns, so the row starts empty here. *)
Definition init_state (self : t) (state : Z) : result t :=
  let self := set_T self (<[state := ∅]> (T self)) in
  let self := set_R self (<[state := ∅]> (R self)) in
  terminal ← is_terminal (world self) state;
  self ←
    (if terminal : bool then
       let self := set_Sp self (Sp self ++ [state]) in
       for_ A (init_action state) self
     else
       let self := set_S self (S self ++ [state]) in
       for_ A (init_action state) self);
  start ← _is_start (world self) state;
  Ok (if start : bool then set_S_start self (S_start self ++ [state]) else self).

(** [Robot.__init__] *)
Definition __init__ (world_definition : option (ndarray * gmap string float))
  : result t :=
  '(world, rewards) ←
    match world_definition with
    | None => _create_example_world "4x4_world"
    | Some wd => Ok wd
    end;
  let self := mk world rewards [] [] [] ∅ ∅ in
  self ← for_ (range (nSp world)) init_state self;
  Ok (set_Sp self (Sp self ++ S self)).

(** [Robot.take_action] *)
Definition take_action (self : t) (state action : Z) : result (Z * float) :=
  row ← dict_getitem (T self) state;
  new_state_a ← dict_getitem row action;
  row ← dict_getitem (R self) state;
  reward ← dict_getitem row action;
  Ok (new_state_a, reward).

(** [Robot.reset]. The method stores the state in [self._current_state],
    which nothing else reads, and returns it; the result here is that
    state. [draw] is the number that the global random generator yields:
    [numpy.random.choice (self.S, size = 1)[0]] is the element of [self.S]
    at the drawn position, and raises [ValueError] on an empty [self.S]. *)
Definition reset (self : t) (random_initial_state : bool) (draw : nat)
  : result Z :=
  if random_initial_state then
    match S self with
    | [] =>
        Raise (ValueError "'a' cannot be empty unless no samples are taken")
    | s0 :: _ => Ok (nth (draw mod length (S self)) (S self) s0)
    end
  else
    match S_start self with
    | s :: _ => Ok s
    | [] => Raise IndexError
    end.


End Robot.

Import Robot.

(** *** Notions used to state the properties *)

(** The label of the cell of a state: [self.world[y, x]] after
    [x, y = self._state2coord (state)], as [__init__], [is_terminal] and
    [_is_start] compute it. *)
Definition cell_label (w : ndarray) (state : Z) : result string :=
  '(x, y) ← _state2coord w state;
  getitem w y x.

(** The coordinate deltas of the four actions:
    NORTH (0,-1), SOUTH (0,+1), WEST (-1,0), EAST (+1,0). *)
Definition delta (action : Z) : Z * Z :=
  if action =? NORTH then (0, -1)
  else if action =? SOUTH then (0, 1)
  else if action =? WEST then (-1, 0)
  else (1, 0).

(** The coordinate a move aims at. *)
Definition target (xy : Z * Z) (action : Z) : Z * Z :=
  (xy.1 + (delta action).1, xy.2 + (delta action).2).

Definition in_grid (w : ndarray) (xy : Z * Z) : Prop :=
  0 <= xy.1 < MAX_X w /\ 0 <= xy.2 < MAX_Y w.

(** A move is blocked when it aims outside the grid or at an obstacle. *)
Definition blocked (w : ndarray) (xy : Z * Z) : Prop :=
  ~ in_grid w xy \/ getitem w xy.2 xy.1 = Ok "o"%string.

(** [s] is a state index of the world: [0 <= s < rows * cols]. *)
Definition valid_state (w : ndarray) (s : Z) : Prop := 0 <= s < nSp w.

(** The exception is a [KeyError] for a label that the reward mapping lacks. *)
Definition missing_label (rw : gmap string float) (e : exception) : Prop :=
  exists l, e = KeyError (StrKey l) /\ rw !! l = None.

(** Repeated [take_action] calls along a list of actions. *)
Fixpoint walk (robot : Robot.t) (state : Z) (actions : list Z) : result Z :=
  match actions with
  | [] => Ok state
  | action :: rest =>
      '(new_state, _) ← take_action robot state action;
      walk robot new_state rest
  end.

(** ** q_learning.py *)

Module q_learning_py.

(** [numpy.zeros ((n, m))] *)
Definition zeros (n m : Z) : list (list float) :=
  replicate (Z.to_nat n) (replicate (Z.to_nat m) 0%float).

(** [Q[s]] *)
Definition Q_row (Q : list (list float)) (s : Z) : result (list float) :=
  s' ← norm_index s (length Q);
  match Q !! Z.to_nat s' with
  | Some row => Ok row
  | None => Raise IndexError
  end.

(** [Q[s][a] = v] *)
Definition Q_setitem (Q : list (list float)) (s a : Z) (v : float)
  : result (list (list float)) :=
  s' ← norm_index s (length Q);
  row ← Q_row Q s;
  a' ← norm_index a (length row);
  Ok (<[Z.to_nat s' := <[Z.to_nat a' := v]> row]> Q).

(** The variables of the loop of [q_learning]. [gen] is the state of the
    random generator that a randomized policy draws from; [trace] is not in
    the source: it records, for every execution of the loop body, the
    state, the action chosen, the next state and the reward. *)
Record loop_state (G : Type) : Type := mk_loop {
  i : Z;
  cur_state : Z;
  Q : list (list float);
  gen : G;
  trace : list (Z * Z * Z * float)
}.
Arguments mk_loop {G}.
Arguments i {G}.
Arguments cur_state {G}.
Arguments Q {G}.
Arguments gen {G}.
Arguments trace {G}.

Section Loop.
Context {G : Type}.

(** Modelled from the spec: the value stored in [Q[cur_state][action]],
    which the source leaves blank ([...]; equation (9) of the lecture's
    Algorithm 3). The step-size schedule is not fixed, so the value is a
    parameter; its arguments are the table, the state, the action, the next
    state, the reward, the discount factor and the iteration number. *)
Variable td_value :
  list (list float) -> Z -> Z -> Z -> float -> float -> Z -> float.

(** The parameters of [q_learning], in the order of the source. The
    behaviour policy goes from the generator and a state to an action. *)
Variable robot : Robot.t.
Variable policy : G -> Z -> Z * G.
Variable init_state : Z.
Variable discount_factor : float.
Variable num_iterations : Z.

(** Modelled from the spec: the right-hand sides of [action = ...] and
    [new_state, reward = ...], which the source leaves blank, are
    [policy (cur_state)] and [robot.take_action (cur_state, action)], as
    the comments of the source say. The rest of the body of
    [while i <= num_iterations] ([i += 1], the assignment to
    [Q[cur_state][action]] and [cur_state = new_state]) is the source's. *)
Definition loop_body (st : loop_state G) : result (loop_state G) :=
  let i := i st + 1 in
  let '(action, gen) := policy (gen st) (cur_state st) in
  '(new_state, reward) ← take_action robot (cur_state st) action;
  Q' ← Q_setitem (Q st) (cur_state st) action
         (td_value (Q st) (cur_state st) action new_state reward
            discount_factor i);
  Ok (mk_loop i new_state Q' gen
        (trace st ++ [(cur_state st, action, new_state, reward)])).

(** [while i <= num_iterations: ...]; [None] when [fuel] runs out. *)
Fixpoint while_loop (fuel : nat) (st : loop_state G)
  : option (result (loop_state G)) :=
  match fuel with
  | O => None
  | Datatypes.S fuel' =>
      if i st <=? num_iterations then
        match loop_body st with
        | Ok st' => while_loop fuel' st'
        | Raise e => Some (Raise e)
        end
      else Some (Ok st)
  end.

(** [q_learning] up to its [return Q]: the final loop variables. *)
Definition q_learning_run (fuel : nat) (g : G)
  : option (result (loop_state G)) :=
  let Q := zeros (nSp (world robot)) (Z.of_nat (length A)) in
  let i := 0 in
  let cur_state := init_state in
  while_loop fuel (mk_loop i cur_state Q g []).

(** [q_learning] *)
Definition q_learning (fuel : nat) (g : G)
  : option (result (list (list float))) :=
  match q_learning_run fuel g with
  | Some (Ok st) => Some (Ok (Q st))
  | Some (Raise e) => Some (Raise e)
  | None => None
  end.

End Loop.

(** Modelled from the spec: the greedy choice, with the tie-break "lowest
    action index first". [argmax_from row idx best best_v] is the index of
    the first maximal entry among [best_v] (at index [best]) and [row]
    (from index [idx]). *)
Fixpoint argmax_from (row : list float) (idx best : Z) (best_v : float) : Z :=
  match row with
  | [] => best
  | v :: row' =>
      if PrimFloat.ltb best_v v
      then argmax_from row' (idx + 1) idx v
      else argmax_from row' (idx + 1) best best_v
  end.

(** Modelled from the spec: the index of the first maximal entry of a row
    ([numpy.argmax]; an empty row raises [ValueError]). *)
Definition argmax (row : list float) : result Z :=
  match row with
  | [] => Raise (ValueError "attempt to get argmax of an empty sequence")
  | v :: row' => Ok (argmax_from row' 1 0 v)
  end.

(** Modelled from the spec: one greedy move, that is the action maximizing
    [Q[state]], then the transition [robot.take_action]. *)
Definition greedy_step (robot : Robot.t) (Q : list (list float)) (state : Z)
  : result Z :=
  row ← Q_row Q state;
  action ← argmax row;
  '(new_state, _) ← take_action robot state action;
  Ok new_state.

(** Modelled from the spec: the loop of [get_optimal_path], which the source
    leaves blank ([while ...]). From [state], append the visited state to
    the path; stop at a terminal state; otherwise take the greedy move, at
    most [cap] times, and fail with [PathNotFoundError] beyond that. *)
Fixpoint greedy_loop (cap : nat) (robot : Robot.t) (Q : list (list float))
  (state : Z) (path : list Z) : result (list Z) :=
  terminal ← is_terminal (world robot) state;
  if terminal : bool then Ok (path ++ [state])
  else
    match cap with
    | O => Raise PathNotFoundError
    | Datatypes.S cap' =>
        new_state ← greedy_step robot Q state;
        greedy_loop cap' robot Q new_state (path ++ [state])
    end.

(** Modelled from the spec: [get_optimal_path] with the loop [greedy_loop]
    in the place of the blank [while ...] of the source, and the iteration
    cap, whose value the spec does not fix, as a parameter. [path = []],
    [init_state = robot.S_start[0]] and [return path] are the source's. *)
Definition get_optimal_path (cap : nat) (robot : Robot.t)
  (Q : list (list float)) : result (list Z) :=
  let path := [] in
  init_state ←
    match S_start robot with
    | s :: _ => Ok s
    | [] => Raise IndexError
    end;
  greedy_loop cap robot Q init_state path.


End q_learning_py.

Import q_learning_py.

(** ** Notions used in the proofs, and example robots *)

(** The coordinates [(x, y)] of a state of the world. *)
Definition coords (w : ndarray) (s : Z) : Z * Z := (s mod MAX_X w, s / MAX_X w).

(** The reward of the cell of a state: [self.rewards[self.world[y, x]]]. *)
Definition cell_reward (w : ndarray) (rw : gmap string float) (s : Z)
  : result float :=
  label ← cell_label w s;
  dict_getitem_str rw label.

(** The entries of [T[s]] and [R[s]] for action [a] are what the loop body
    computes: the updated state and the reward of its cell. *)
Definition entry_ok (w : ndarray) (rw : gmap string float) (s a : Z)
    (rowT : gmap Z Z) (rowR : gmap Z float) : Prop :=
  exists ns rwd,
    _update_state w s a = Ok ns /\ cell_reward w rw ns = Ok rwd /\
    rowT !! a = Some ns /\ rowR !! a = Some rwd.

(** The rows of [s] exist and hold exactly the actions [acts]. *)
Definition rows_ok (w : ndarray) (rw : gmap string float) (acts : list Z)
    (s : Z) (self : Robot.t) : Prop :=
  exists rowT rowR,
    T self !! s = Some rowT /\ R self !! s = Some rowR /\
    forall a, (a ∈ acts -> entry_ok w rw s a rowT rowR) /\
              (a ∉ acts -> rowT !! a = None /\ rowR !! a = None).

(** The loop over the actions, from a state [self0] of the constructor. *)
Definition actions_inv (w : ndarray) (rw : gmap string float) (state : Z)
    (self0 : Robot.t) (done : list Z) (self : Robot.t) : Prop :=
  world self = w /\ rewards self = rw /\
  Robot.S self = Robot.S self0 /\ Sp self = Sp self0 /\
  S_start self = S_start self0 /\
  (forall s', s' <> state ->
     T self !! s' = T self0 !! s' /\ R self !! s' = R self0 !! s') /\
  rows_ok w rw done state self.

(** The loop over the states: what holds after the states [done]. *)
Definition states_inv (w : ndarray) (rw : gmap string float)
    (done : list Z) (self : Robot.t) : Prop :=
  world self = w /\ rewards self = rw /\
  (forall s, s ∈ done -> rows_ok w rw A s self) /\
  (forall s, s ∉ done -> T self !! s = None /\ R self !! s = None) /\
  (forall s, s ∈ done -> exists b, is_terminal w s = Ok b) /\
  (forall s, s ∈ Robot.S self <-> s ∈ done /\ is_terminal w s = Ok false) /\
  (forall s, s ∈ Sp self <-> s ∈ done /\ is_terminal w s = Ok true) /\
  (forall s, s ∈ S_start self <-> s ∈ done /\ _is_start w s = Ok true).

(** What a robot built from the world [w] and the reward mapping [rw]
    holds. *)
Definition built_from (w : ndarray) (rw : gmap string float) (r : Robot.t)
  : Prop :=
  world r = w /\ rewards r = rw /\
  (forall s, valid_state w s -> rows_ok w rw A s r) /\
  (forall s, ~ valid_state w s -> T r !! s = None /\ R r !! s = None) /\
  (forall s, s ∈ Robot.S r <-> valid_state w s /\ is_terminal w s = Ok false) /\
  (forall s, s ∈ Sp r <-> valid_state w s) /\
  (forall s, s ∈ S_start r <-> valid_state w s /\ _is_start w s = Ok true).

Definition robot_of (r : result Robot.t) : Robot.t :=
  match r with
  | Ok r => r
  | Raise _ => Robot.mk (numpy.array []) ∅ [] [] [] ∅ ∅
  end.

Definition robot_4x4 : Robot.t := robot_of (__init__ None).

Definition robot_obstacles : Robot.t :=
  robot_of (wd ← _create_example_world "obstacles"; __init__ (Some wd)).

(** The names that [_create_example_world] knows. *)
Definition example_worlds : list string :=
  ["4x4_world"; "obstacles"; "6x6_world_blocked"; "6x4_world_2"]%string.

(** A world whose obstacle label has no reward: the obstacle in the middle
    has four free neighbours. *)
Definition world_hole : ndarray :=
  numpy.array [["S"; "."; "."];
               ["."; "o"; "."];
               ["."; "."; "T"]]%string.

Definition rewards_hole : gmap string float :=
  <["S" := (-1)%float]> (<["." := (-1)%float]> (<["T" := 0%float]> ∅)).

(** The table has one row per state and one column per action. *)
Definition Q_shape (w : ndarray) (Q : list (list float)) : Prop :=
  length Q = Z.to_nat (nSp w) /\ Forall (fun row => length row = length A) Q.

(** What the learning loop keeps true of its variables. *)
Definition loop_inv {G : Type} (robot : Robot.t) (st : loop_state G) : Prop :=
  valid_state (world robot) (cur_state st) /\ Q_shape (world robot) (Q st).

(** A table whose greedy walk goes east along the top row and then south
    along the last column. *)
Definition Q_east_then_south : list (list float) :=
  let east := [0; 0; 0; 1]%float in
  let south := [0; 1; 0; 0]%float in
  let none := [0; 0; 0; 0]%float in
  [east; east; east; south;
   none; none; none; south;
   none; none; none; south;
   none; none; none; none].

(** [is_terminal] and [_is_start] as tests on the states of a world. *)
Definition terminalb (w : ndarray) (s : Z) : bool :=
  match is_terminal w s with
  | Ok b => b
  | Raise _ => false
  end.

Definition startb (w : ndarray) (s : Z) : bool :=
  match _is_start w s with
  | Ok b => b
  | Raise _ => false
  end.

(** The action that undoes a move. *)
Definition opposite (action : Z) : Z :=
  if action =? NORTH then SOUTH
  else if action =? SOUTH then NORTH
  else if action =? WEST then EAST
  else WEST.

(** Every label of the grid has a reward. *)
Definition all_labels_rewarded (w : ndarray) (rw : gmap string float) : Prop :=
  forall l, l ∈ data w -> is_Some (rw !! l).

(** The exception is a [KeyError] for a label of the grid that the reward
    mapping lacks. *)
Definition grid_label_missing (w : ndarray) (rw : gmap string float)
    (e : exception) : Prop :=
  exists l, e = KeyError (StrKey l) /\ l ∈ data w /\ rw !! l = None.




(** The lists [S], [Sp] and [S_start] after the constructor's loop has
    gone through the states [done]. *)
Definition lists_inv (w : ndarray) (rw : gmap string float)
    (done : list Z) (self : Robot.t) : Prop :=
  world self = w /\ rewards self = rw /\
  Robot.S self = List.filter (fun s => negb (terminalb w s)) done /\
  Sp self = List.filter (terminalb w) done /\
  S_start self = List.filter (startb w) done.

(** While the constructor fills the rows of [state], they exist. *)
Definition rows_exist (w : ndarray) (rw : gmap string float) (state : Z)
    (done : list Z) (self : Robot.t) : Prop :=
  world self = w /\ rewards self = rw /\
  is_Some (T self !! state) /\ is_Some (R self !! state).





(** A robot on a grid of two cells, none of which is a start cell. *)
Definition robot_no_start : Robot.t :=
  robot_of (__init__ (Some (numpy.array [["."; "T"]]%string, rewards_hole))).

(** ** Reasoning about results and loops *)

Lemma bind_Ok_inv {X Y} (m : result X) (f : X -> result Y) (y : Y) :
  (m ≫= f) = Ok y -> exists x, m = Ok x /\ f x = Ok y.
Proof. destruct m as [x|e]; [eauto | discriminate]. Qed.

Ltac inv_bind H :=
  let x := fresh "x" in
  let Hx := fresh "H" x in
  apply bind_Ok_inv in H as (x & Hx & H).

(** A loop invariant for [for_]: [P done st] holds of the state after the
    elements [done]; an exception raised by the body satisfies [E]. *)
Lemma for_inv {X St} (P : list X -> St -> Prop) (E : exception -> Prop)
    (body : St -> X -> result St) (xs : list X) :
  (forall done st x, x ∈ xs -> P done st ->
     match body st x with
     | Ok st' => P (done ++ [x]) st'
     | Raise e => E e
     end) ->
  forall done st, P done st ->
    match for_ xs body st with
    | Ok st' => P (done ++ xs) st'
    | Raise e => E e
    end.
Proof.
  induction xs as [|x xs IH]; intros Hbody done st HP; simpl.
  - by rewrite app_nil_r.
  - pose proof (Hbody done st x (list_elem_of_here _ _) HP) as Hx.
    destruct (body st x) as [st'|e]; simpl; [|done].
    replace (done ++ x :: xs) with ((done ++ [x]) ++ xs)
      by (by rewrite <- app_assoc).
    apply IH; [|done].
    intros done' st0 x0 Hin. apply Hbody. by apply list_elem_of_further.
Qed.

Lemma elem_of_A (a : Z) :
  a ∈ A <-> a = NORTH \/ a = SOUTH \/ a = WEST \/ a = EAST.
Proof.
  unfold A. rewrite !elem_of_cons, elem_of_nil. tauto.
Qed.

Lemma elem_of_range (n s : Z) : s ∈ range n <-> 0 <= s < n.
Proof. unfold range. rewrite elem_of_seqZ. lia. Qed.

(** ** The index maps *)

Lemma _state2coord_Ok w s :
  0 <= s < nSp w ->
  _state2coord w s = Ok (s mod MAX_X w, s / MAX_X w).
Proof.
  intros Hs. unfold _state2coord, unravel_index, nSp, MAX_Y, MAX_X in *.
  destruct (Z.leb_spec 0 s); [|lia].
  destruct (Z.ltb_spec s (Z.of_nat (shape w).1 * Z.of_nat (shape w).2)); [|lia].
  reflexivity.
Qed.

Lemma _coord2state_Ok w x y :
  0 <= x < MAX_X w -> 0 <= y < MAX_Y w ->
  _coord2state w (x, y) = Ok (y * MAX_X w + x).
Proof.
  intros Hx Hy. unfold _coord2state, ravel_multi_index, MAX_Y, MAX_X in *. simpl.
  destruct (Z.leb_spec 0 y); [|lia].
  destruct (Z.ltb_spec y (Z.of_nat (shape w).1)); [|lia].
  destruct (Z.leb_spec 0 x); [|lia].
  destruct (Z.ltb_spec x (Z.of_nat (shape w).2)); [|lia].
  reflexivity.
Qed.

Lemma state_coord_in_grid w s :
  0 <= s < nSp w ->
  0 <= s mod MAX_X w < MAX_X w /\ 0 <= s / MAX_X w < MAX_Y w.
Proof.
  intros Hs. unfold nSp in Hs.
  assert (0 <= MAX_X w /\ 0 <= MAX_Y w) as [? ?] by (unfold MAX_X, MAX_Y; lia).
  assert (0 < MAX_X w) by nia.
  split; [apply Z.mod_pos_bound; lia|].
  split; [apply Z.div_pos; lia|].
  apply Z.div_lt_upper_bound; nia.
Qed.

Lemma coord_state_in_range w x y :
  0 <= x < MAX_X w -> 0 <= y < MAX_Y w ->
  0 <= y * MAX_X w + x < nSp w.
Proof. intros Hx Hy. unfold nSp. nia. Qed.

(** C4. The index maps are inverse to each other on the valid states
    [0 <= s < rows * cols] and the in-grid coordinates, both are defined
    there, and the layout is row-major from the top-left corner:
    [s = y * cols + x]. *)
Theorem index_maps_inverse (w : ndarray) :
  (forall s, 0 <= s < nSp w ->
     exists x y,
       _state2coord w s = Ok (x, y) /\
       (0 <= x < MAX_X w /\ 0 <= y < MAX_Y w) /\
       s = y * MAX_X w + x /\
       _coord2state w (x, y) = Ok s) /\
  (forall x y, 0 <= x < MAX_X w -> 0 <= y < MAX_Y w ->
     exists s,
       _coord2state w (x, y) = Ok s /\
       0 <= s < nSp w /\
       s = y * MAX_X w + x /\
       _state2coord w s = Ok (x, y)).
Proof.
  split.
  - intros s Hs. exists (s mod MAX_X w), (s / MAX_X w).
    pose proof (state_coord_in_grid w s Hs) as [Hx Hy].
    assert (Hd : s = s / MAX_X w * MAX_X w + s mod MAX_X w).
    { rewrite Z.mul_comm. apply Z.div_mod. lia. }
    split; [by apply _state2coord_Ok|].
    split; [done|]. split; [done|].
    rewrite _coord2state_Ok by done. by rewrite <- Hd.
  - intros x y Hx Hy. exists (y * MAX_X w + x).
    pose proof (coord_state_in_range w x y Hx Hy) as Hs.
    split; [by apply _coord2state_Ok|].
    split; [done|]. split; [done|].
    rewrite _state2coord_Ok by done.
    f_equal. f_equal.
    + rewrite Z.add_comm, Z.mod_add by lia. apply Z.mod_small. lia.
    + rewrite Z.add_comm, Z.div_add by lia. rewrite Z.div_small by lia. lia.
Qed.

(** In the 4 x 4 example world: state 7 is the cell (3, 1), and back. *)
Lemma index_maps_inverse_witness :
  (exists x y,
     _state2coord (world robot_4x4) 7 = Ok (x, y) /\
     (0 <= x < MAX_X (world robot_4x4) /\ 0 <= y < MAX_Y (world robot_4x4)) /\
     7 = y * MAX_X (world robot_4x4) + x /\
     _coord2state (world robot_4x4) (x, y) = Ok 7) /\
  (exists s,
     _coord2state (world robot_4x4) (3, 1) = Ok s /\
     0 <= s < nSp (world robot_4x4) /\
     s = 1 * MAX_X (world robot_4x4) + 3 /\
     _state2coord (world robot_4x4) s = Ok (3, 1)).
Proof.
  split.
  - apply (proj1 (index_maps_inverse (world robot_4x4)) 7).
    vm_compute. split; [discriminate | reflexivity].
  - apply (proj2 (index_maps_inverse (world robot_4x4)) 3 1);
      vm_compute; (split; [discriminate | reflexivity]).
Defined.

(** ** Cells and moves *)

Lemma _state2coord_Ok_inv w s xy :
  _state2coord w s = Ok xy -> valid_state w s /\ xy = coords w s.
Proof.
  unfold _state2coord, unravel_index, valid_state, nSp, MAX_X, MAX_Y, coords.
  destruct (Z.leb_spec 0 s); simpl; [|discriminate].
  destruct (Z.ltb_spec s (Z.of_nat (shape w).1 * Z.of_nat (shape w).2));
    simpl; [|discriminate].
  intros [= <-]. split; [lia | done].
Qed.

Lemma _is_outside_at_false w xy : _is_outside_at w xy = false <-> in_grid w xy.
Proof.
  unfold _is_outside_at, in_grid. rewrite !orb_false_iff.
  rewrite !Z.ltb_ge, !Z.geb_leb, !Z.leb_gt. lia.
Qed.

Lemma _is_outside_at_true w xy : _is_outside_at w xy = true <-> ~ in_grid w xy.
Proof.
  rewrite <- _is_outside_at_false. destruct (_is_outside_at w xy); split; congruence.
Qed.

Lemma norm_index_in_range (i : Z) (n : nat) :
  0 <= i < Z.of_nat n -> norm_index i n = Ok i.
Proof.
  intros Hi. unfold norm_index.
  destruct (Z.leb_spec 0 i); [|lia].
  destruct (Z.ltb_spec i (Z.of_nat n)); [|lia]. done.
Qed.

Lemma getitem_in_grid w x y :
  in_grid w (x, y) ->
  getitem w y x =
    match data w !! Z.to_nat (y * MAX_X w + x) with
    | Some l => Ok l
    | None => Raise IndexError
    end.
Proof.
  unfold in_grid, MAX_X, MAX_Y, getitem. simpl. intros [Hx Hy].
  by rewrite !norm_index_in_range by done.
Qed.

Lemma getitem_wf w x y :
  numpy.wf w -> in_grid w (x, y) -> exists l, getitem w y x = Ok l.
Proof.
  intros Hwf Hin. rewrite getitem_in_grid by done.
  destruct (data w !! Z.to_nat (y * MAX_X w + x)) as [l|] eqn:Hl; [eauto|].
  apply lookup_ge_None in Hl. exfalso.
  destruct Hin as [Hx Hy]. simpl in *.
  unfold numpy.wf in Hwf. unfold MAX_X, MAX_Y in *. nia.
Qed.

Lemma cell_label_valid w s :
  valid_state w s ->
  cell_label w s =
    match data w !! Z.to_nat s with
    | Some l => Ok l
    | None => Raise IndexError
    end.
Proof.
  intros Hs. unfold cell_label. rewrite _state2coord_Ok by done. simpl.
  pose proof (state_coord_in_grid w s Hs) as Hin.
  rewrite getitem_in_grid by done.
  replace (s / MAX_X w * MAX_X w + s mod MAX_X w) with s; [done|].
  rewrite Z.mul_comm. apply Z.div_mod. lia.
Qed.

Lemma cell_label_coord w x y :
  in_grid w (x, y) -> cell_label w (y * MAX_X w + x) = getitem w y x.
Proof.
  intros Hin. destruct Hin as [Hx Hy]; simpl in *.
  rewrite cell_label_valid by (by apply coord_state_in_range).
  by rewrite getitem_in_grid.
Qed.

Lemma cell_label_Ok_inv w s l : cell_label w s = Ok l -> valid_state w s.
Proof.
  unfold cell_label. intros H. inv_bind H.
  by apply _state2coord_Ok_inv in Hx as [? _].
Qed.

Lemma is_terminal_label w s b :
  is_terminal w s = Ok b <->
  exists l, cell_label w s = Ok l /\ b = String.eqb l "T".
Proof.
  unfold is_terminal, cell_label.
  destruct (_state2coord w s) as [[x y]|e]; simpl.
  - destruct (getitem w y x) as [l|e]; simpl.
    + split; [intros [= <-]; eauto | intros (l' & [= ->] & ->); done].
    + split; [done | by intros (? & ? & _)].
  - split; [done | by intros (? & ? & _)].
Qed.

Lemma _is_start_label w s b :
  _is_start w s = Ok b <->
  exists l, cell_label w s = Ok l /\ b = String.eqb l "S".
Proof.
  unfold _is_start, cell_label.
  destruct (_state2coord w s) as [[x y]|e]; simpl.
  - destruct (getitem w y x) as [l|e]; simpl.
    + split; [intros [= <-]; eauto | intros (l' & [= ->] & ->); done].
    + split; [done | by intros (? & ? & _)].
  - split; [done | by intros (? & ? & _)].
Qed.

(** The new coordinate that [_update_state] computes is [target]. *)
Lemma _update_state_eq w s a :
  valid_state w s -> a ∈ A ->
  _update_state w s a =
    let t := target (coords w s) a in
    if _is_outside_at w t then Ok s
    else l ← getitem w t.2 t.1;
         if String.eqb l "o" then Ok s else _coord2state w t.
Proof.
  intros Hs Ha. unfold _update_state.
  rewrite _state2coord_Ok by done. fold (coords w s).
  apply elem_of_A in Ha as [-> | [-> | [-> | ->]]]; simpl;
    (destruct (_is_outside_at w _); [done|]);
    unfold _is_obstacle_at; simpl;
    (destruct (getitem w _ _); [|done]); simpl;
    by destruct (String.eqb _ _).
Qed.

Lemma _update_state_Ok_inv w s a ns :
  _update_state w s a = Ok ns -> valid_state w s /\ a ∈ A.
Proof.
  unfold _update_state. intros H. inv_bind H.
  apply _state2coord_Ok_inv in Hx as [Hs _]. split; [done|].
  inv_bind H. clear H. rewrite elem_of_A. unfold NORTH, SOUTH, WEST, EAST in *.
  destruct (Z.eqb_spec a 0); [tauto|].
  destruct (Z.eqb_spec a 1); [tauto|].
  destruct (Z.eqb_spec a 2); [tauto|].
  destruct (Z.eqb_spec a 3); [tauto|]. discriminate.
Qed.

(** A blocked move leaves the robot where it is. *)
Lemma _update_state_blocked w s a :
  valid_state w s -> a ∈ A -> blocked w (target (coords w s) a) ->
  _update_state w s a = Ok s.
Proof.
  intros Hs Ha Hb. rewrite _update_state_eq by done. cbv zeta.
  destruct (_is_outside_at w _) eqn:Hout; [done|].
  destruct Hb as [Hb | Hb].
  - by apply _is_outside_at_false in Hout.
  - by rewrite Hb.
Qed.

(** What [_update_state] returns: the state itself when the move is
    blocked, the state of the target cell otherwise. *)
Lemma _update_state_cases w s a ns :
  _update_state w s a = Ok ns ->
  let t := target (coords w s) a in
  (blocked w t /\ ns = s) \/
  (in_grid w t /\ (exists l, getitem w t.2 t.1 = Ok l /\ l <> "o"%string) /\
   ns = t.2 * MAX_X w + t.1).
Proof.
  intros H. pose proof (_update_state_Ok_inv _ _ _ _ H) as [Hs Ha].
  rewrite _update_state_eq in H by done. cbv zeta in *.
  destruct (_is_outside_at w _) eqn:Hout.
  - left. injection H as <-. split; [|done]. left. by apply _is_outside_at_true.
  - apply _is_outside_at_false in Hout.
    inv_bind H. destruct (String.eqb_spec x "o") as [-> | Hne].
    + left. injection H as <-. split; [|done]. by right.
    + right. split; [done|]. split; [eauto|].
      destruct Hout as [Hx' Hy'].
      destruct (target (coords w s) a) as [tx ty] eqn:Ht; simpl in *.
      rewrite _coord2state_Ok in H by done. by injection H as <-.
Qed.

Lemma _update_state_wf w s a :
  numpy.wf w -> valid_state w s -> a ∈ A -> exists ns, _update_state w s a = Ok ns.
Proof.
  intros Hwf Hs Ha. rewrite _update_state_eq by done. cbv zeta.
  destruct (_is_outside_at w _) eqn:Hout; [eauto|].
  apply _is_outside_at_false in Hout.
  destruct (target (coords w s) a) as [tx ty] eqn:Ht.
  destruct (getitem_wf w tx ty Hwf Hout) as [l Hl]. simpl. rewrite Hl. simpl.
  destruct (String.eqb l "o"); [eauto|].
  destruct Hout as [? ?]. rewrite _coord2state_Ok by done. eauto.
Qed.

(** The state returned is a state of the world, and is on an obstacle only
    if the robot was. *)
Lemma _update_state_closed w s a ns :
  _update_state w s a = Ok ns ->
  valid_state w ns /\
  (cell_label w ns = Ok "o"%string -> cell_label w s = Ok "o"%string).
Proof.
  intros H. pose proof (_update_state_Ok_inv _ _ _ _ H) as [Hs Ha].
  apply _update_state_cases in H. cbv zeta in H.
  destruct H as [[_ ->] | (Hin & (l & Hl & Hne) & ->)]; [done|].
  destruct (target (coords w s) a) as [tx ty] eqn:Ht; simpl in *.
  destruct Hin as [? ?]; simpl in *.
  split; [by apply coord_state_in_range|].
  rewrite cell_label_coord by done. congruence.
Qed.

(** ** The tables built by the constructor *)

Lemma cell_reward_wf w rw s :
  numpy.wf w -> valid_state w s ->
  match cell_reward w rw s with
  | Ok _ => True
  | Raise e => missing_label rw e
  end.
Proof.
  intros Hwf Hs. unfold cell_reward. rewrite cell_label_valid by done.
  destruct (data w !! Z.to_nat s) as [l|] eqn:Hl; simpl.
  - unfold dict_getitem_str. destruct (rw !! l) eqn:Hrw; [done|].
    by exists l.
  - apply lookup_ge_None in Hl. exfalso.
    unfold numpy.wf in Hwf. unfold valid_state, nSp, MAX_X, MAX_Y in Hs. nia.
Qed.

Lemma init_action_spec w rw state self action :
  world self = w -> rewards self = rw ->
  match init_action state self action with
  | Ok self' =>
      exists ns rwd rowT rowR,
        _update_state w state action = Ok ns /\
        cell_reward w rw ns = Ok rwd /\
        T self !! state = Some rowT /\ R self !! state = Some rowR /\
        self' = Robot.mk w rw (Robot.S self) (Sp self) (S_start self)
                  (<[state := <[action := ns]> rowT]> (T self))
                  (<[state := <[action := rwd]> rowR]> (R self))
  | Raise e =>
      numpy.wf w -> valid_state w state -> action ∈ A ->
      is_Some (T self !! state) -> is_Some (R self !! state) ->
      missing_label rw e
  end.
Proof.
  intros Hw Hrw. unfold init_action. rewrite Hw, Hrw.
  destruct (_update_state w state action) as [ns|e] eqn:Hns; simpl.
  2:{ intros Hwf Hs Ha _ _.
      destruct (_update_state_wf w state action Hwf Hs Ha); congruence. }
  pose proof (_update_state_closed _ _ _ _ Hns) as [Hv _].
  pose proof (cell_reward_wf w rw ns) as Hcr.
  unfold cell_reward, cell_label in Hcr |- *.
  rewrite _state2coord_Ok in Hcr |- * by done. simpl in Hcr |- *.
  destruct (getitem w _ _) as [label|e] eqn:Hg; simpl in Hcr |- *; [|by auto].
  destruct (dict_getitem_str rw label) as [rwd|e] eqn:Hd; simpl; [|by auto].
  unfold dict_setitem2, dict_getitem.
  destruct (T self !! state) as [rowT|] eqn:HT; simpl.
  2:{ intros _ _ _ [? ?]. done. }
  destruct (R self !! state) as [rowR|] eqn:HR; simpl.
  2:{ intros _ _ _ _ [? ?]. done. }
  exists ns, rwd, rowT, rowR. split; [done|]. split.
  { unfold cell_reward, cell_label. rewrite _state2coord_Ok by done. simpl.
    rewrite Hg. simpl. by rewrite Hd. }
  by rewrite <- Hw, <- Hrw.
Qed.

Lemma init_actions_spec w rw state self0 :
  world self0 = w -> rewards self0 = rw ->
  T self0 !! state = Some ∅ -> R self0 !! state = Some ∅ ->
  match for_ A (init_action state) self0 with
  | Ok self' => actions_inv w rw state self0 A self'
  | Raise e => numpy.wf w -> valid_state w state -> missing_label rw e
  end.
Proof.
  intros Hw Hrw HT HR.
  apply (for_inv (actions_inv w rw state self0)
           (fun e => numpy.wf w -> valid_state w state -> missing_label rw e)
           (init_action state) A) with (done := []).
  - intros done self a Ha (Hw' & Hrw' & HS & HSp & HSs & Hoth & Hrows).
    pose proof (init_action_spec w rw state self a Hw' Hrw') as Hstep.
    destruct Hrows as (rowT & rowR & HrT & HrR & Hrow).
    destruct (init_action state self a) as [self'|e].
    + destruct Hstep as (ns & rwd & rowT' & rowR' & Hns & Hrwd & HT' & HR' & ->).
      rewrite HrT in HT'. rewrite HrR in HR'.
      injection HT' as <-. injection HR' as <-.
      repeat split; simpl; try done.
      * rewrite lookup_insert_ne by done. by apply Hoth.
      * rewrite lookup_insert_ne by done. by apply Hoth.
      * exists (<[a := ns]> rowT), (<[a := rwd]> rowR). simpl.
        rewrite !lookup_insert_eq. split; [done|]. split; [done|].
        intros a'. rewrite elem_of_app, list_elem_of_singleton.
        destruct (decide (a = a')) as [<- | Hne].
        -- split; [|tauto]. intros _. exists ns, rwd.
           by rewrite !lookup_insert_eq.
        -- rewrite !lookup_insert_ne by done.
           destruct (Hrow a') as [Hin Hout]. split.
           ++ intros [Hd | ->]; [|done].
              destruct (Hin Hd) as (ns' & rwd' & ? & ? & ? & ?).
              exists ns', rwd'. by rewrite !lookup_insert_ne by done.
           ++ intros Hn. apply Hout. tauto.
    + intros Hwf Hs. apply Hstep; rewrite ?HrT, ?HrR; by eauto.
  - repeat split; try done.
    exists ∅, ∅. split; [done|]. split; [done|].
    intros a. split; [by intros ?%elem_of_nil | done].
Qed.

Lemma cell_label_wf w s :
  numpy.wf w -> valid_state w s -> exists l, cell_label w s = Ok l.
Proof.
  intros Hwf Hs. rewrite cell_label_valid by done.
  destruct (data w !! Z.to_nat s) as [l|] eqn:Hl; [eauto|].
  apply lookup_ge_None in Hl. exfalso.
  unfold numpy.wf in Hwf. unfold valid_state, nSp, MAX_X, MAX_Y in Hs. nia.
Qed.

Lemma is_terminal_wf w s :
  numpy.wf w -> valid_state w s -> exists b, is_terminal w s = Ok b.
Proof.
  intros Hwf Hs. destruct (cell_label_wf w s Hwf Hs) as [l Hl].
  exists (String.eqb l "T"). apply is_terminal_label. eauto.
Qed.

Lemma _is_start_wf w s :
  numpy.wf w -> valid_state w s -> exists b, _is_start w s = Ok b.
Proof.
  intros Hwf Hs. destruct (cell_label_wf w s Hwf Hs) as [l Hl].
  exists (String.eqb l "S"). apply _is_start_label. eauto.
Qed.

Lemma init_state_spec w rw self state :
  world self = w -> rewards self = rw ->
  match init_state self state with
  | Ok self' =>
      world self' = w /\ rewards self' = rw /\
      (forall s', s' <> state ->
         T self' !! s' = T self !! s' /\ R self' !! s' = R self !! s') /\
      rows_ok w rw A state self' /\
      exists b c,
        is_terminal w state = Ok b /\ _is_start w state = Ok c /\
        Robot.S self' = (if b : bool then Robot.S self else Robot.S self ++ [state]) /\
        Sp self' = (if b : bool then Sp self ++ [state] else Sp self) /\
        S_start self' =
          (if c : bool then S_start self ++ [state] else S_start self)
  | Raise e => numpy.wf w -> valid_state w state -> missing_label rw e
  end.
Proof.
  intros Hw Hrw. unfold init_state. simpl. rewrite Hw.
  destruct (is_terminal w state) as [b|e] eqn:Hb; simpl.
  2:{ intros Hwf Hs. destruct (is_terminal_wf w state Hwf Hs); congruence. }
  set (self1 := set_R (set_T self (<[state:=∅]> (T self))) (<[state:=∅]> (R self))).
  assert (Hloop : forall self0,
    world self0 = w -> rewards self0 = rw ->
    T self0 = <[state:=∅]> (T self) -> R self0 = <[state:=∅]> (R self) ->
    match
      self' ← for_ A (init_action state) self0;
      start ← _is_start (world self') state;
      Ok (if start : bool
          then set_S_start self' (S_start self' ++ [state]) else self')
    with
    | Ok self' =>
        world self' = w /\ rewards self' = rw /\
        (forall s', s' <> state ->
           T self' !! s' = T self !! s' /\ R self' !! s' = R self !! s') /\
        rows_ok w rw A state self' /\
        exists c, _is_start w state = Ok c /\
          Robot.S self' = Robot.S self0 /\ Sp self' = Sp self0 /\
          S_start self' =
            (if c : bool then S_start self0 ++ [state] else S_start self0)
    | Raise e => numpy.wf w -> valid_state w state -> missing_label rw e
    end).
  { intros self0 Hw0 Hrw0 HT0 HR0.
    pose proof (init_actions_spec w rw state self0 Hw0 Hrw0) as Hacts.
    rewrite HT0, HR0, !lookup_insert_eq in Hacts.
    specialize (Hacts eq_refl eq_refl).
    destruct (for_ A (init_action state) self0) as [self'|e]; simpl; [|done].
    destruct Hacts as (Hw' & Hrw' & HS & HSp & HSs & Hoth & Hrows).
    rewrite Hw'.
    destruct (_is_start w state) as [c|e] eqn:Hc; simpl.
    2:{ intros Hwf Hs. destruct (_is_start_wf w state Hwf Hs); congruence. }
    assert (Hoth' : forall s', s' <> state ->
              T self' !! s' = T self !! s' /\ R self' !! s' = R self !! s').
    { intros s' Hne. destruct (Hoth s' Hne) as [-> ->].
      rewrite HT0, HR0. by rewrite !lookup_insert_ne by done. }
    destruct c; simpl.
    - do 2 (split; [done|]). split; [exact Hoth'|]. split; [done|].
      exists true. by rewrite HSs.
    - do 2 (split; [done|]). split; [exact Hoth'|]. split; [done|].
      by exists false. }
  destruct b.
  - specialize (Hloop (set_Sp self1 (Sp self1 ++ [state])) Hw Hrw eq_refl eq_refl).
    destruct (_ ≫= _) as [self'|e]; [|done].
    destruct Hloop as (? & ? & ? & ? & c & ? & ? & ? & ?).
    do 4 (split; [done|]). by exists true, c.
  - specialize (Hloop (set_S self1 (Robot.S self1 ++ [state])) Hw Hrw eq_refl eq_refl).
    destruct (_ ≫= _) as [self'|e]; [|done].
    destruct Hloop as (? & ? & ? & ? & c & ? & ? & ? & ?).
    do 4 (split; [done|]). by exists false, c.
Qed.

Lemma rows_ok_other w rw acts s self self' :
  T self' !! s = T self !! s -> R self' !! s = R self !! s ->
  rows_ok w rw acts s self -> rows_ok w rw acts s self'.
Proof. unfold rows_ok. intros -> ->. done. Qed.

Lemma init_state_inv w rw done self state :
  states_inv w rw done self ->
  match init_state self state with
  | Ok self' => states_inv w rw (done ++ [state]) self'
  | Raise e => numpy.wf w -> valid_state w state -> missing_label rw e
  end.
Proof.
  intros (Hw & Hrw & Hrows & Hnone & Hterm & HS & HSp & HSs).
  pose proof (init_state_spec w rw self state Hw Hrw) as Hst.
  destruct (init_state self state) as [self'|e]; [|done].
  destruct Hst as (Hw' & Hrw' & Hoth & Hrow & b & c & Hb & Hc & HS' & HSp' & HSs').
  unfold states_inv. do 2 (split; [done|]).
  split; [|split; [|split; [|split; [|split]]]].
  - intros s. destruct (decide (s = state)) as [-> | Hne]; [done|].
    rewrite elem_of_app, list_elem_of_singleton. intros [Hd | ?]; [|done].
    destruct (Hoth s Hne) as [HT HR].
    apply (rows_ok_other w rw A s self self'); [done | done | by apply Hrows].
  - intros s. rewrite elem_of_app, list_elem_of_singleton. intros Hn.
    assert (s <> state) as Hne by tauto.
    destruct (Hoth s Hne) as [-> ->]. apply Hnone. tauto.
  - intros s. rewrite elem_of_app, list_elem_of_singleton.
    intros [Hd | ->]; [by apply Hterm | eauto].
  - intros s. rewrite HS', elem_of_app, list_elem_of_singleton.
    destruct b.
    + rewrite HS. split; [tauto|]. intros [[? | ->] ?]; [tauto | congruence].
    + rewrite elem_of_app, list_elem_of_singleton, HS.
      split; [|intros [[? | ->] ?]; tauto].
      intros [? | ->]; [tauto|]. tauto.
  - intros s. rewrite HSp', elem_of_app, list_elem_of_singleton.
    destruct b.
    + rewrite elem_of_app, list_elem_of_singleton, HSp.
      split; [|intros [[? | ->] ?]; tauto].
      intros [? | ->]; [tauto|]. tauto.
    + rewrite HSp. split; [tauto|]. intros [[? | ->] ?]; [tauto | congruence].
  - intros s. rewrite HSs', elem_of_app, list_elem_of_singleton.
    destruct c.
    + rewrite elem_of_app, list_elem_of_singleton, HSs.
      split; [|intros [[? | ->] ?]; tauto].
      intros [? | ->]; [tauto|]. tauto.
    + rewrite HSs. split; [tauto|]. intros [[? | ->] ?]; [tauto | congruence].
Qed.

Lemma __init___spec w rw :
  match __init__ (Some (w, rw)) with
  | Ok r => built_from w rw r
  | Raise e => numpy.wf w -> missing_label rw e
  end.
Proof.
  unfold __init__. simpl.
  pose proof (for_inv (states_inv w rw)
                (fun e => numpy.wf w -> missing_label rw e)
                init_state (range (nSp w))) as Hfor.
  specialize (Hfor (fun done st x Hx HP =>
    match init_state st x as res
      return match res with
             | Ok st' => states_inv w rw (done ++ [x]) st'
             | Raise e => numpy.wf w -> valid_state w x -> missing_label rw e
             end ->
             match res with
             | Ok st' => states_inv w rw (done ++ [x]) st'
             | Raise e => numpy.wf w -> missing_label rw e
             end
    with
    | Ok _ => fun H => H
    | Raise _ => fun H Hwf => H Hwf (proj1 (elem_of_range _ _) Hx)
    end (init_state_inv w rw done st x HP))).
  specialize (Hfor [] (Robot.mk w rw [] [] [] ∅ ∅)).
  destruct (for_ _ _ _) as [self|e]; simpl.
  2:{ apply Hfor. unfold states_inv. simpl.
      do 2 (split; [done|]).
      split; [by intros s ?%elem_of_nil|]. split; [done|].
      split; [by intros s ?%elem_of_nil|].
      split; [|split]; intros s; rewrite !elem_of_nil; tauto. }
  assert (Hinv : states_inv w rw (range (nSp w)) self).
  { apply Hfor. unfold states_inv. simpl.
    do 2 (split; [done|]).
    split; [by intros s ?%elem_of_nil|]. split; [done|].
    split; [by intros s ?%elem_of_nil|].
    split; [|split]; intros s; rewrite !elem_of_nil; tauto. }
  destruct Hinv as (Hw & Hrw & Hrows & Hnone & Hterm & HS & HSp & HSs).
  unfold built_from. simpl. do 2 (split; [done|]).
  split; [|split; [|split; [|split]]].
  - intros s Hs. apply (rows_ok_other w rw A s self); [done..|].
    apply Hrows. by apply elem_of_range.
  - intros s Hs. apply Hnone. by rewrite elem_of_range.
  - intros s. rewrite HS, elem_of_range. done.
  - intros s. rewrite elem_of_app, HS, HSp, elem_of_range. unfold valid_state.
    split; [tauto|]. intros Hs.
    destruct (Hterm s) as [[|] Hb]; [by apply elem_of_range | tauto | tauto].
  - intros s. rewrite HSs, elem_of_range. done.
Qed.

Lemma __init___Ok w rw r : __init__ (Some (w, rw)) = Ok r -> built_from w rw r.
Proof. intros H. pose proof (__init___spec w rw) as Hs. by rewrite H in Hs. Qed.

Lemma __init___Raise w rw e :
  numpy.wf w -> __init__ (Some (w, rw)) = Raise e -> missing_label rw e.
Proof. intros Hwf H. pose proof (__init___spec w rw) as Hs. rewrite H in Hs. auto. Qed.

(** The default world is the example world "4x4_world". *)
Lemma __init___built wd r :
  __init__ wd = Ok r -> built_from (world r) (rewards r) r.
Proof.
  intros H.
  assert (exists w rw, __init__ (Some (w, rw)) = Ok r) as (w & rw & H').
  { destruct wd as [[w rw]|]; [by exists w, rw|].
    assert (exists w rw, _create_example_world "4x4_world" = Ok (w, rw))
      as (w & rw & Hdefault) by (eexists _, _; reflexivity).
    exists w, rw. unfold __init__ in H |- *. by rewrite Hdefault in H. }
  pose proof (__init___Ok w rw r H') as Hb.
  destruct Hb as (Hw & Hrw & Hrest). rewrite Hw, Hrw.
  split; [done|]. split; [done|]. exact Hrest.
Qed.

(** [take_action] reads what the constructor stored. *)
Lemma take_action_built w rw r s a :
  built_from w rw r -> valid_state w s -> a ∈ A ->
  exists ns rwd row,
    take_action r s a = Ok (ns, rwd) /\
    T r !! s = Some row /\ row !! a = Some ns /\
    _update_state w s a = Ok ns /\ cell_reward w rw ns = Ok rwd.
Proof.
  intros (_ & _ & Hrows & _) Hs Ha.
  destruct (Hrows s Hs) as (rowT & rowR & HT & HR & Hrow).
  destruct (Hrow a) as [Hin _].
  destruct (Hin Ha) as (ns & rwd & Hns & Hrwd & HTa & HRa).
  exists ns, rwd, rowT. unfold take_action, dict_getitem.
  rewrite HT, HR. simpl. rewrite HTa, HRa. done.
Qed.

Lemma cell_reward_Ok_inv w rw s rwd :
  cell_reward w rw s = Ok rwd ->
  exists l, cell_label w s = Ok l /\ rw !! l = Some rwd.
Proof.
  unfold cell_reward. intros H. inv_bind H. exists x. split; [done|].
  unfold dict_getitem_str in H. destruct (rw !! x); [congruence | discriminate].
Qed.

(** ** The robots of the example worlds *)

Lemma robot_4x4_built : __init__ None = Ok robot_4x4.
Proof. vm_compute. reflexivity. Defined.

Lemma robot_obstacles_built :
  __init__ (Some (world robot_obstacles, rewards robot_obstacles))
  = Ok robot_obstacles.
Proof. vm_compute. reflexivity. Defined.

(** ** Properties of [take_action] *)

(** C1. In the example world "4x4_world" the state 15 is terminal (its cell
    is labelled "T", whose reward is 0.0), yet [take_action (15, NORTH)]
    moves to state 11 and returns the reward -1.0 of that cell: the
    constructor calls [_update_state] for terminal states too, so they are
    not absorbing. *)
Theorem terminal_state_not_absorbing :
  __init__ None = Ok robot_4x4 /\
  is_terminal (world robot_4x4) 15 = Ok true /\
  cell_reward (world robot_4x4) (rewards robot_4x4) 15 = Ok 0%float /\
  take_action robot_4x4 15 NORTH = Ok (11, (-1)%float).
Proof.
  split; [exact robot_4x4_built|]. vm_compute. done.
Qed.

(** C2. In a constructed world, from a non-terminal state [s] whose
    coordinates are [xy], an action whose target coordinate is outside the
    grid or on an obstacle cell leaves the position unchanged, and the
    reward returned is the reward of the label of the cell of [s]. *)
Theorem blocked_move_is_noop (wd : option (ndarray * gmap string float))
    (r : Robot.t) (s a : Z) (xy : Z * Z) :
  __init__ wd = Ok r ->
  is_terminal (world r) s = Ok false ->
  a ∈ A ->
  _state2coord (world r) s = Ok xy ->
  blocked (world r) (target xy a) ->
  exists l rwd,
    cell_label (world r) s = Ok l /\ rewards r !! l = Some rwd /\
    take_action r s a = Ok (s, rwd).
Proof.
  intros Hinit _ Ha Hxy Hb.
  apply _state2coord_Ok_inv in Hxy as [Hs ->].
  pose proof (__init___built wd r Hinit) as Hbuilt.
  destruct (take_action_built _ _ r s a Hbuilt Hs Ha)
    as (ns & rwd & row & Hta & _ & _ & Hns & Hrwd).
  rewrite _update_state_blocked in Hns by done. injection Hns as <-.
  apply cell_reward_Ok_inv in Hrwd as (l & Hl & Hrw).
  by exists l, rwd.
Qed.

Lemma blocked_move_is_noop_witness :
  exists l rwd,
    cell_label (world robot_obstacles) 6 = Ok l /\
    rewards robot_obstacles !! l = Some rwd /\
    take_action robot_obstacles 6 EAST = Ok (6, rwd).
Proof.
  apply (blocked_move_is_noop
           (Some (world robot_obstacles, rewards robot_obstacles))
           robot_obstacles 6 EAST (0, 1)).
  - exact robot_obstacles_built.
  - vm_compute. reflexivity.
  - vm_compute. apply list_elem_of_In. simpl. tauto.
  - vm_compute. reflexivity.
  - right. vm_compute. reflexivity.
Defined.

(** C3. In a constructed world, for every state of S+ and every action, the
    reward that [take_action] returns is the reward-mapping value of the
    label of the cell of the returned next state. *)
Theorem reward_is_of_next_state (wd : option (ndarray * gmap string float))
    (r : Robot.t) (s a : Z) :
  __init__ wd = Ok r ->
  s ∈ Sp r ->
  a ∈ A ->
  exists ns rwd l,
    take_action r s a = Ok (ns, rwd) /\
    cell_label (world r) ns = Ok l /\ rewards r !! l = Some rwd.
Proof.
  intros Hinit Hs Ha.
  pose proof (__init___built wd r Hinit) as Hbuilt.
  assert (Hv : valid_state (world r) s).
  { destruct Hbuilt as (_ & _ & _ & _ & _ & HSp & _). by apply HSp. }
  destruct (take_action_built _ _ r s a Hbuilt Hv Ha)
    as (ns & rwd & row & Hta & _ & _ & Hns & Hrwd).
  apply cell_reward_Ok_inv in Hrwd as (l & Hl & Hrw).
  by exists ns, rwd, l.
Qed.

Lemma reward_is_of_next_state_witness :
  exists ns rwd l,
    take_action robot_4x4 14 EAST = Ok (ns, rwd) /\
    cell_label (world robot_4x4) ns = Ok l /\
    rewards robot_4x4 !! l = Some rwd.
Proof.
  apply (reward_is_of_next_state None robot_4x4 14 EAST).
  - exact robot_4x4_built.
  - vm_compute. apply list_elem_of_In. simpl. tauto.
  - vm_compute. apply list_elem_of_In. simpl. tauto.
Defined.

(** The reward of a move into another cell is the reward of that cell, not
    of the cell left: entering the terminal cell from state 14 pays 0.0,
    while the cell of state 14 is worth -1.0. *)
Example reward_into_terminal :
  take_action robot_4x4 14 EAST = Ok (15, 0%float) /\
  cell_reward (world robot_4x4) (rewards robot_4x4) 14 = Ok (-1)%float.
Proof. vm_compute. done. Qed.

(** C7. In a constructed world, for every state of S+, [take_action] with
    an action that is none of NORTH, SOUTH, WEST, EAST fails: the lookup of
    the action in the row of the state raises [KeyError]. *)
Theorem invalid_action_raises (wd : option (ndarray * gmap string float))
    (r : Robot.t) (s a : Z) :
  __init__ wd = Ok r ->
  s ∈ Sp r ->
  a ∉ A ->
  take_action r s a = Raise (KeyError (IntKey a)).
Proof.
  intros Hinit Hs Ha.
  pose proof (__init___built wd r Hinit) as (_ & _ & Hrows & _ & _ & HSp & _).
  apply HSp in Hs.
  destruct (Hrows s Hs) as (rowT & rowR & HT & HR & Hrow).
  destruct (Hrow a) as [_ Hout]. destruct (Hout Ha) as [HTa _].
  unfold take_action, dict_getitem. rewrite HT. simpl. by rewrite HTa.
Qed.

Lemma invalid_action_raises_witness :
  take_action robot_4x4 3 7 = Raise (KeyError (IntKey 7)).
Proof.
  apply (invalid_action_raises None robot_4x4 3 7).
  - exact robot_4x4_built.
  - vm_compute. apply list_elem_of_In. simpl. tauto.
  - vm_compute. intros H%list_elem_of_In. simpl in H.
    repeat (destruct H as [H | H]; [discriminate H|]). exact H.
Defined.

(** C9, as stated, fails: in the example world "obstacles" the cell of
    state 7 (row 1, column 1) carries the obstacle label, and 7 is in S. *)
Lemma S_contains_obstacle_state :
  (wd ← _create_example_world "obstacles"; __init__ (Some wd))
  = Ok robot_obstacles /\
  cell_label (world robot_obstacles) 7 = Ok "o"%string /\
  7 ∈ Robot.S robot_obstacles.
Proof.
  split; [vm_compute; reflexivity|].
  split; [vm_compute; reflexivity|].
  vm_compute. apply list_elem_of_In. simpl. tauto.
Qed.

(** C9, amended. The members of S are exactly the states of the world whose
    cell is not labelled "T"; the states on obstacle cells are among
    them. *)
Theorem S_is_the_non_terminal_states (wd : option (ndarray * gmap string float))
    (r : Robot.t) (s : Z) :
  __init__ wd = Ok r ->
  (s ∈ Robot.S r <->
   valid_state (world r) s /\
   exists l, cell_label (world r) s = Ok l /\ l <> "T"%string) /\
  (s ∈ Robot.S r -> is_terminal (world r) s = Ok false) /\
  (cell_label (world r) s = Ok "o"%string -> s ∈ Robot.S r).
Proof.
  intros Hinit.
  pose proof (__init___built wd r Hinit) as (_ & _ & _ & _ & HS & _ & _).
  assert (Hiff : s ∈ Robot.S r <->
    valid_state (world r) s /\
    exists l, cell_label (world r) s = Ok l /\ l <> "T"%string).
  { rewrite HS, is_terminal_label. split.
    - intros (Hv & l & Hl & Hb). split; [done|]. exists l. split; [done|].
      intros ->. discriminate Hb.
    - intros (Hv & l & Hl & Hne). split; [done|]. exists l. split; [done|].
      symmetry. by apply String.eqb_neq. }
  split; [done|]. split.
  - intros Hs. by apply HS in Hs as [_ ?].
  - intros Hl. apply Hiff. split; [by apply cell_label_Ok_inv in Hl|].
    by exists "o"%string.
Qed.

Lemma S_is_the_non_terminal_states_witness :
  (7 ∈ Robot.S robot_obstacles <->
   valid_state (world robot_obstacles) 7 /\
   exists l, cell_label (world robot_obstacles) 7 = Ok l /\ l <> "T"%string) /\
  (7 ∈ Robot.S robot_obstacles ->
   is_terminal (world robot_obstacles) 7 = Ok false) /\
  (cell_label (world robot_obstacles) 7 = Ok "o"%string ->
   7 ∈ Robot.S robot_obstacles).
Proof.
  apply (S_is_the_non_terminal_states
           (Some (world robot_obstacles, rewards robot_obstacles))
           robot_obstacles 7).
  exact robot_obstacles_built.
Defined.

(** C10. In a constructed world, for every state [s] of S+ and every
    action, the entry [T[s][a]] exists and is a state index of the world,
    and its cell is an obstacle cell only if the cell of [s] is one; hence
    a sequence of [take_action] calls along any actions, from a state that
    is not on an obstacle, never fails, stays in the grid and never lands
    on an obstacle. *)
Theorem transitions_stay_in_free_cells
    (wd : option (ndarray * gmap string float)) (r : Robot.t) (s : Z) :
  __init__ wd = Ok r ->
  s ∈ Sp r ->
  (forall a, a ∈ A ->
     exists row ns,
       T r !! s = Some row /\ row !! a = Some ns /\
       0 <= ns < Z.of_nat (shape (world r)).1 * Z.of_nat (shape (world r)).2 /\
       ns ∈ Sp r /\
       (cell_label (world r) s <> Ok "o"%string ->
        cell_label (world r) ns <> Ok "o"%string)) /\
  (forall actions, Forall (fun a => a ∈ A) actions ->
     exists ns,
       walk r s actions = Ok ns /\
       0 <= ns < Z.of_nat (shape (world r)).1 * Z.of_nat (shape (world r)).2 /\
       ns ∈ Sp r /\
       (cell_label (world r) s <> Ok "o"%string ->
        cell_label (world r) ns <> Ok "o"%string)).
Proof.
  intros Hinit Hs.
  pose proof (__init___built wd r Hinit) as Hbuilt.
  assert (HSp : forall s, s ∈ Sp r <-> valid_state (world r) s).
  { by destruct Hbuilt as (_ & _ & _ & _ & _ & HSp & _). }
  assert (Hrange : forall s, valid_state (world r) s ->
    0 <= s < Z.of_nat (shape (world r)).1 * Z.of_nat (shape (world r)).2).
  { intros s'. unfold valid_state, nSp, MAX_X, MAX_Y. lia. }
  assert (Hstep : forall s a, s ∈ Sp r -> a ∈ A ->
    exists row ns rwd,
      take_action r s a = Ok (ns, rwd) /\
      T r !! s = Some row /\ row !! a = Some ns /\ ns ∈ Sp r /\
      (cell_label (world r) s <> Ok "o"%string ->
       cell_label (world r) ns <> Ok "o"%string)).
  { intros s' a Hs' Ha. apply HSp in Hs'.
    destruct (take_action_built _ _ r s' a Hbuilt Hs' Ha)
      as (ns & rwd & row & Hta & HT & Hrow & Hns & _).
    apply _update_state_closed in Hns as [Hv Hobs].
    exists row, ns, rwd. do 3 (split; [done|]). split; [by apply HSp|].
    intros Hfree Hocc. by apply Hfree, Hobs. }
  split.
  - intros a Ha.
    destruct (Hstep s a Hs Ha) as (row & ns & rwd & _ & HT & Hrow & Hin & Hfree).
    exists row, ns. do 2 (split; [done|]).
    split; [by apply Hrange, HSp|]. done.
  - intros actions Hacts. revert s Hs.
    induction Hacts as [|a actions Ha _ IH]; intros s Hs; simpl.
    + exists s. split; [done|]. split; [by apply Hrange, HSp|]. done.
    + destruct (Hstep s a Hs Ha) as (row & ns & rwd & Hta & _ & _ & Hin & Hfree).
      rewrite Hta. simpl.
      destruct (IH ns Hin) as (ns' & Hw & Hr' & Hin' & Hfree').
      exists ns'. do 3 (split; [done|]). auto.
Qed.

Lemma transitions_stay_in_free_cells_witness :
  (forall a, a ∈ A ->
     exists row ns,
       T robot_obstacles !! 8 = Some row /\ row !! a = Some ns /\
       0 <= ns < Z.of_nat (shape (world robot_obstacles)).1
                 * Z.of_nat (shape (world robot_obstacles)).2 /\
       ns ∈ Sp robot_obstacles /\
       (cell_label (world robot_obstacles) 8 <> Ok "o"%string ->
        cell_label (world robot_obstacles) ns <> Ok "o"%string)) /\
  (forall actions, Forall (fun a => a ∈ A) actions ->
     exists ns,
       walk robot_obstacles 8 actions = Ok ns /\
       0 <= ns < Z.of_nat (shape (world robot_obstacles)).1
                 * Z.of_nat (shape (world robot_obstacles)).2 /\
       ns ∈ Sp robot_obstacles /\
       (cell_label (world robot_obstacles) 8 <> Ok "o"%string ->
        cell_label (world robot_obstacles) ns <> Ok "o"%string)).
Proof.
  apply (transitions_stay_in_free_cells
           (Some (world robot_obstacles, rewards robot_obstacles))
           robot_obstacles 8).
  - exact robot_obstacles_built.
  - vm_compute. apply list_elem_of_In. simpl. tauto.
Defined.

(** From state 8 of the world "obstacles", whose neighbours to the west and
    to the south are obstacles, only NORTH and EAST move the robot. *)
Example walk_around_obstacles :
  walk robot_obstacles 8 [WEST; SOUTH; EAST; SOUTH; SOUTH; SOUTH; WEST] = Ok 21.
Proof. vm_compute. reflexivity. Qed.

(** ** Worlds that the constructor rejects *)

Lemma coords_of_coord w x y :
  in_grid w (x, y) -> coords w (y * MAX_X w + x) = (x, y).
Proof.
  intros [Hx Hy]. simpl in *. unfold coords. f_equal.
  - rewrite Z.add_comm, Z.mod_add by lia. apply Z.mod_small. lia.
  - rewrite Z.add_comm, Z.div_add by lia. rewrite Z.div_small by lia. lia.
Qed.

Lemma coords_decompose w s :
  valid_state w s -> s = (coords w s).2 * MAX_X w + (coords w s).1.
Proof.
  intros Hs. pose proof (state_coord_in_grid w s Hs). unfold coords. simpl.
  rewrite Z.mul_comm. apply Z.div_mod. lia.
Qed.

(** Every cell that is not an obstacle is the result of some move. *)
Lemma free_cell_is_reached w c l :
  cell_label w c = Ok l -> l <> "o"%string ->
  exists s a, valid_state w s /\ a ∈ A /\ _update_state w s a = Ok c.
Proof.
  intros Hl Hne. pose proof (cell_label_Ok_inv _ _ _ Hl) as Hc.
  pose proof (state_coord_in_grid w c Hc) as [Hx Hy].
  pose proof (coords_decompose w c Hc) as Hdec. unfold coords in Hdec. simpl in Hdec.
  destruct (decide (c / MAX_X w = 0)) as [Hy0 | Hy0].
  - exists c, NORTH. split; [done|]. split; [apply elem_of_A; tauto|].
    apply _update_state_blocked; [done | apply elem_of_A; tauto |].
    left. unfold in_grid, target, coords. simpl. lia.
  - set (x := c mod MAX_X w) in *. set (y := c / MAX_X w) in *.
    assert (Hin : in_grid w (x, y - 1)) by (unfold in_grid; simpl; lia).
    assert (Hin' : in_grid w (x, y)) by (unfold in_grid; simpl; lia).
    exists ((y - 1) * MAX_X w + x), SOUTH.
    assert (Hv : valid_state w ((y - 1) * MAX_X w + x)).
    { destruct Hin. by apply coord_state_in_range. }
    split; [done|]. split; [apply elem_of_A; tauto|].
    rewrite _update_state_eq by (done || apply elem_of_A; tauto).
    rewrite coords_of_coord by done. unfold target. simpl.
    replace (y - 1 + 1) with y by lia. replace (x + 0) with x by lia.
    apply _is_outside_at_false in Hin' as Hout. rewrite Hout.
    rewrite Hdec in Hl. rewrite cell_label_coord in Hl by done.
    rewrite Hl. simpl. apply String.eqb_neq in Hne. rewrite Hne.
    destruct Hin' as [? ?]. rewrite _coord2state_Ok by done. by rewrite <- Hdec.
Qed.

Lemma _create_example_world_unknown type :
  type ∉ example_worlds ->
  _create_example_world type = Raise (ValueError "Invalid example world type").
Proof.
  unfold example_worlds. rewrite !not_elem_of_cons.
  intros (H1 & H2 & H3 & H4 & _). unfold _create_example_world.
  apply String.eqb_neq in H1, H2, H3, H4. by rewrite H1, H2, H3, H4.
Qed.

(** C6, as stated, fails: [world_hole] contains the label "o", which
    [rewards_hole] lacks, and the constructor returns a robot. *)
Lemma unknown_obstacle_label_accepted :
  "o"%string ∈ data world_hole /\
  rewards_hole !! "o"%string = None /\
  exists r, __init__ (Some (world_hole, rewards_hole)) = Ok r.
Proof.
  split; [|split].
  - vm_compute. apply list_elem_of_In. simpl. tauto.
  - vm_compute. reflexivity.
  - eexists. vm_compute. reflexivity.
Qed.

(** C6, amended. A name that [_create_example_world] does not know raises
    [ValueError]. The constructor raises [KeyError], for a label that the
    reward mapping lacks, when the cell of some state carries a label
    without a reward and either that label is not the obstacle label or one
    of the four moves from that cell is blocked. *)
Theorem unknown_world_rejected (type : string) (w : ndarray)
    (rw : gmap string float) (s : Z) (l : string) :
  (type ∉ example_worlds ->
   _create_example_world type = Raise (ValueError "Invalid example world type"))
  /\
  (numpy.wf w ->
   cell_label w s = Ok l ->
   rw !! l = None ->
   (l <> "o"%string \/
    exists a xy, a ∈ A /\ _state2coord w s = Ok xy /\ blocked w (target xy a)) ->
   exists e, __init__ (Some (w, rw)) = Raise e /\ missing_label rw e).
Proof.
  split; [apply _create_example_world_unknown|].
  intros Hwf Hl Hrw Hcase.
  assert (Hreach : exists s' a,
            valid_state w s' /\ a ∈ A /\ _update_state w s' a = Ok s).
  { destruct Hcase as [Hne | (a & xy & Ha & Hxy & Hb)].
    - by apply (free_cell_is_reached w s l).
    - apply _state2coord_Ok_inv in Hxy as [Hs ->].
      exists s, a. do 2 (split; [done|]). by apply _update_state_blocked. }
  destruct Hreach as (s' & a & Hs' & Ha & Hup).
  destruct (__init__ (Some (w, rw))) as [r|e] eqn:Hinit.
  - exfalso. apply __init___Ok in Hinit.
    destruct (take_action_built w rw r s' a Hinit Hs' Ha)
      as (ns & rwd & row & _ & _ & _ & Hns & Hrwd).
    rewrite Hup in Hns. injection Hns as <-.
    apply cell_reward_Ok_inv in Hrwd as (l' & Hl' & Hrw').
    congruence.
  - exists e. split; [done|]. by apply (__init___Raise w rw e).
Qed.

Lemma unknown_world_rejected_witness :
  _create_example_world "5x5_world"
  = Raise (ValueError "Invalid example world type") /\
  exists e,
    __init__ (Some (numpy.array [["S"; "?"]; ["."; "T"]]%string, rewards_hole))
    = Raise e /\
    missing_label rewards_hole e.
Proof.
  destruct (unknown_world_rejected "5x5_world"
              (numpy.array [["S"; "?"]; ["."; "T"]]%string)
              rewards_hole 1 "?") as [Hname Hlabel].
  split.
  - apply Hname. vm_compute. intros H%list_elem_of_In. simpl in H.
    repeat (destruct H as [H | H]; [discriminate H|]). exact H.
  - apply Hlabel.
    + vm_compute. reflexivity.
    + vm_compute. reflexivity.
    + vm_compute. reflexivity.
    + left. discriminate.
Defined.

(** ** The learning loop *)

Lemma zeros_shape w : Q_shape w (zeros (nSp w) (Z.of_nat (length A))).
Proof.
  unfold Q_shape, zeros. rewrite length_replicate. split; [done|].
  apply Forall_replicate. by rewrite length_replicate, Nat2Z.id.
Qed.

Lemma Q_setitem_shape w Q s a v :
  Q_shape w Q -> valid_state w s -> a ∈ A ->
  exists Q', Q_setitem Q s a v = Ok Q' /\ Q_shape w Q'.
Proof.
  intros [Hlen Hrows] Hs Ha. unfold Q_setitem, Q_row.
  assert (Hs' : 0 <= s < Z.of_nat (length Q)).
  { rewrite Hlen. unfold valid_state in Hs. lia. }
  rewrite norm_index_in_range by done. simpl.
  destruct (Q !! Z.to_nat s) as [row|] eqn:Hrow.
  2:{ apply lookup_ge_None in Hrow. lia. }
  simpl.
  assert (Hr : length row = length A).
  { rewrite Forall_forall in Hrows. apply Hrows.
    apply list_elem_of_lookup. eauto. }
  assert (Ha' : 0 <= a < Z.of_nat (length row)).
  { rewrite Hr. apply elem_of_A in Ha. unfold NORTH, SOUTH, WEST, EAST in Ha.
    simpl. lia. }
  rewrite norm_index_in_range by done. simpl.
  eexists. split; [done|]. split.
  - by rewrite length_insert.
  - apply Forall_insert; [done|]. by rewrite length_insert.
Qed.

Section LoopFacts.
Context {G : Type}.
Variable td_value :
  list (list float) -> Z -> Z -> Z -> float -> float -> Z -> float.
Variable robot : Robot.t.
Variable policy : G -> Z -> Z * G.
Variable discount_factor : float.
Variable num_iterations : Z.

Hypothesis robot_built : built_from (world robot) (rewards robot) robot.
Hypothesis policy_legal : forall g s, (policy g s).1 ∈ A.

Lemma loop_body_runs st :
  loop_inv robot st ->
  exists st',
    loop_body td_value robot policy discount_factor st = Ok st' /\
    loop_inv robot st' /\ i st' = i st + 1 /\
    length (trace st') = Datatypes.S (length (trace st)).
Proof.
  intros [Hs HQ]. unfold loop_body.
  pose proof (policy_legal (gen st) (cur_state st)) as Ha.
  destruct (policy (gen st) (cur_state st)) as [action g'] eqn:Hp.
  simpl in Ha.
  destruct (take_action_built _ _ robot (cur_state st) action robot_built Hs Ha)
    as (ns & rwd & row & Hta & _ & _ & Hns & _).
  rewrite Hta. simpl.
  destruct (Q_setitem_shape (world robot) (Q st) (cur_state st) action
              (td_value (Q st) (cur_state st) action ns rwd discount_factor
                 (i st + 1)) HQ Hs Ha) as (Q' & HQ' & Hshape).
  rewrite HQ'. simpl. eexists. split; [done|]. simpl.
  split; [|split; [done|]].
  - split; [|done]. simpl. by apply _update_state_closed in Hns as [? _].
  - rewrite length_app. simpl. lia.
Qed.

(** From loop variables with counter [i], the loop runs its body
    [num_iterations + 1 - i] times (no times if that is negative), and
    stops. *)
Lemma while_loop_runs fuel st :
  loop_inv robot st ->
  (Z.to_nat (num_iterations + 1 - i st) < fuel)%nat ->
  exists st',
    while_loop td_value robot policy discount_factor num_iterations fuel st
    = Some (Ok st') /\
    length (trace st')
    = (length (trace st) + Z.to_nat (num_iterations + 1 - i st))%nat /\
    i st' = Z.max (i st) (num_iterations + 1).
Proof.
  revert st. induction fuel as [|fuel IH]; intros st Hinv Hfuel; [lia|].
  simpl. destruct (Z.leb_spec (i st) num_iterations) as [Hle | Hgt].
  - destruct (loop_body_runs st Hinv) as (st1 & Hbody & Hinv1 & Hi1 & Htr1).
    rewrite Hbody.
    destruct (IH st1 Hinv1) as (st' & Hrun & Htr & Hi); [lia|].
    exists st'. split; [done|]. split; [|lia].
    rewrite Htr, Htr1, Hi1. lia.
  - exists st. split; [done|]. split; lia.
Qed.

End LoopFacts.

(** C5. On a constructed robot, with a policy that returns actions of the
    action set and an initial state of S+, [q_learning] with the budget
    [num_iterations] terminates (enough fuel gives a result) after exactly
    [num_iterations + 1] executions of the loop body when the budget is not
    negative, and none otherwise: the counter starts at 0 and the guard is
    [i <= num_iterations]. There is no other exit from the loop. *)
Theorem q_learning_runs_budget_plus_one {G : Type}
    (td_value : list (list float) -> Z -> Z -> Z -> float -> float -> Z -> float)
    (wd : option (ndarray * gmap string float)) (robot : Robot.t)
    (policy : G -> Z -> Z * G) (init_state : Z) (discount_factor : float)
    (num_iterations : Z) (fuel : nat) (g : G) :
  __init__ wd = Ok robot ->
  init_state ∈ Sp robot ->
  (forall g s, (policy g s).1 ∈ A) ->
  (Z.to_nat (num_iterations + 1) < fuel)%nat ->
  exists st,
    q_learning_run td_value robot policy init_state discount_factor
      num_iterations fuel g = Some (Ok st) /\
    q_learning td_value robot policy init_state discount_factor
      num_iterations fuel g = Some (Ok (Q st)) /\
    length (trace st) = Z.to_nat (num_iterations + 1) /\
    i st = Z.max 0 (num_iterations + 1).
Proof.
  intros Hinit Hs Hpol Hfuel.
  pose proof (__init___built wd robot Hinit) as Hbuilt.
  assert (Hv : valid_state (world robot) init_state).
  { destruct Hbuilt as (_ & _ & _ & _ & _ & HSp & _). by apply HSp. }
  unfold q_learning, q_learning_run.
  destruct (while_loop_runs td_value robot policy discount_factor
              num_iterations Hbuilt Hpol fuel
              (mk_loop 0 init_state
                 (zeros (nSp (world robot)) (Z.of_nat (length A))) g []))
    as (st & Hrun & Htr & Hi).
  - split; [done|]. apply zeros_shape.
  - simpl. by rewrite Z.sub_0_r.
  - simpl in Htr, Hi. rewrite Z.sub_0_r in Htr.
    exists st. rewrite Hrun. done.
Qed.

(** With the budget 0 the loop body runs once. *)
Lemma q_learning_runs_budget_plus_one_witness :
  exists st,
    q_learning_run (G := unit) (fun _ _ _ _ reward _ _ => reward)
      robot_4x4 (fun g _ => (EAST, g)) 0 1%float 0 2%nat tt
    = Some (Ok st) /\
    q_learning (G := unit) (fun _ _ _ _ reward _ _ => reward)
      robot_4x4 (fun g _ => (EAST, g)) 0 1%float 0 2%nat tt
    = Some (Ok (Q st)) /\
    length (trace st) = Z.to_nat (0 + 1) /\
    i st = Z.max 0 (0 + 1).
Proof.
  apply (q_learning_runs_budget_plus_one (G := unit)
           (fun _ _ _ _ reward _ _ => reward) None robot_4x4
           (fun g _ => (EAST, g)) 0 1%float 0 2%nat tt).
  - exact robot_4x4_built.
  - vm_compute. apply list_elem_of_In. simpl. tauto.
  - intros g s. simpl. apply list_elem_of_In. simpl. tauto.
  - simpl. lia.
Defined.

(** The budget 3 on the example world: four transitions are sampled. *)
Example q_learning_budget_3 :
  option_map (fun res => match res with Ok st => trace st | Raise _ => [] end)
    (q_learning_run (G := unit) (fun _ _ _ _ reward _ _ => reward)
       robot_4x4 (fun g _ => (EAST, g)) 0 1%float 3 10%nat tt)
  = Some [(0, EAST, 1, (-1)%float); (1, EAST, 2, (-1)%float);
          (2, EAST, 3, (-1)%float); (3, EAST, 3, (-1)%float)].
Proof. vm_compute. reflexivity. Qed.

(** ** Greedy path extraction *)

Lemma greedy_loop_capped cap robot Q (I : Z -> Prop) :
  (forall s, I s ->
     is_terminal (world robot) s = Ok false /\
     exists s', greedy_step robot Q s = Ok s' /\ I s') ->
  forall s path, I s -> greedy_loop cap robot Q s path = Raise PathNotFoundError.
Proof.
  intros Hclosed. induction cap as [|cap IH]; intros s path Hs; simpl;
    destruct (Hclosed s Hs) as (Hterm & s' & Hstep & Hs'); rewrite Hterm; simpl.
  - done.
  - rewrite Hstep. simpl. by apply IH.
Qed.

(** C8. Whatever the cap, [get_optimal_path] returns; and when the greedy
    walk from the first start state stays within a set [I] of non-terminal
    states (a cycle of the greedy policy, for one), it stops at the cap
    and fails with [PathNotFoundError]. *)
Theorem greedy_extraction_is_capped (cap : nat) (robot : Robot.t)
    (Q : list (list float)) (I : Z -> Prop) (s0 : Z) (starts : list Z) :
  S_start robot = s0 :: starts ->
  I s0 ->
  (forall s, I s ->
     is_terminal (world robot) s = Ok false /\
     exists s', greedy_step robot Q s = Ok s' /\ I s') ->
  get_optimal_path cap robot Q = Raise PathNotFoundError.
Proof.
  intros Hstart Hs0 Hclosed. unfold get_optimal_path. rewrite Hstart. simpl.
  by apply (greedy_loop_capped cap robot Q I).
Qed.

(** With the table of zeros the greedy action is NORTH everywhere; from the
    start state 0 of the example world that move is blocked, so the walk
    stays at 0 for ever. *)
Lemma greedy_extraction_is_capped_witness :
  get_optimal_path 1000 robot_4x4 (zeros 16 4) = Raise PathNotFoundError.
Proof.
  apply (greedy_extraction_is_capped 1000 robot_4x4 (zeros 16 4)
           (fun s => s = 0) 0 []).
  - vm_compute. reflexivity.
  - reflexivity.
  - intros s ->. split; [vm_compute; reflexivity|].
    exists 0. split; [vm_compute; reflexivity | reflexivity].
Defined.

(** When the walk reaches the terminal state within the cap, the path is
    returned, from the start state to the terminal state. *)
Example greedy_path_found :
  get_optimal_path 6 robot_4x4 Q_east_then_south = Ok [0; 1; 2; 3; 7; 11; 15].
Proof. vm_compute. reflexivity. Qed.

Example greedy_path_cap_too_small :
  get_optimal_path 5 robot_4x4 Q_east_then_south = Raise PathNotFoundError.
Proof. vm_compute. reflexivity. Qed.

(** ** The shape of the tables and of the state lists *)

Lemma __init___Some wd r :
  __init__ wd = Ok r ->
  __init__ (Some (world r, rewards r)) = Ok r.
Proof.
  intros H.
  assert (exists w rw, __init__ (Some (w, rw)) = Ok r) as (w & rw & H').
  { destruct wd as [[w rw]|]; [by exists w, rw|].
    assert (exists w rw, _create_example_world "4x4_world" = Ok (w, rw))
      as (w & rw & Hdefault) by (eexists _, _; reflexivity).
    exists w, rw. unfold __init__ in H |- *. by rewrite Hdefault in H. }
  pose proof (__init___Ok w rw r H') as (<- & <- & _). done.
Qed.

(** [take_action] succeeds only on a state of the world and an action of
    the action set, and returns what [_update_state] computes. *)
Lemma take_action_Ok_inv w rw r s a ns rwd :
  built_from w rw r -> take_action r s a = Ok (ns, rwd) ->
  valid_state w s /\ a ∈ A /\
  _update_state w s a = Ok ns /\ cell_reward w rw ns = Ok rwd.
Proof.
  intros Hbuilt Hta.
  pose proof Hbuilt as (_ & _ & Hrows & Hnone & _).
  assert (Hs : valid_state w s).
  { assert (valid_state w s \/ ~ valid_state w s) as [?|Hn]
      by (unfold valid_state; lia); [done|].
    destruct (Hnone s Hn) as [HT _].
    unfold take_action, dict_getitem in Hta. by rewrite HT in Hta. }
  assert (Ha : a ∈ A).
  { destruct (decide (a ∈ A)) as [?|Hn]; [done|].
    destruct (Hrows s Hs) as (rowT & rowR & HT & HR & Hrow).
    destruct (Hrow a) as [_ Hout]. destruct (Hout Hn) as [HTa _].
    unfold take_action, dict_getitem in Hta. rewrite HT in Hta. simpl in Hta.
    by rewrite HTa in Hta. }
  do 2 (split; [done|]).
  destruct (take_action_built w rw r s a Hbuilt Hs Ha)
    as (ns' & rwd' & row & Hta' & _ & _ & Hns & Hrwd).
  rewrite Hta in Hta'. by injection Hta' as <- <-.
Qed.

(** X1. In a constructed robot, [T] and [R] have a row for exactly the
    states [0 <= s < rows * cols] and every row has an entry for exactly
    the four actions; [take_action] on any other state raises [KeyError]
    for that state, whatever the action. *)
Theorem tables_cover_states_and_actions
    (wd : option (ndarray * gmap string float)) (r : Robot.t) (s a : Z) :
  __init__ wd = Ok r ->
  (is_Some (T r !! s) <-> valid_state (world r) s) /\
  (is_Some (R r !! s) <-> valid_state (world r) s) /\
  (forall row, T r !! s = Some row -> (is_Some (row !! a) <-> a ∈ A)) /\
  (forall row, R r !! s = Some row -> (is_Some (row !! a) <-> a ∈ A)) /\
  (~ valid_state (world r) s ->
   take_action r s a = Raise (KeyError (IntKey s))).
Proof.
  intros Hinit.
  pose proof (__init___built wd r Hinit) as (_ & _ & Hrows & Hnone & _).
  assert (Hdec : valid_state (world r) s \/ ~ valid_state (world r) s)
    by (unfold valid_state; lia).
  assert (Hrow : forall a', valid_state (world r) s ->
    forall rowT rowR, T r !! s = Some rowT -> R r !! s = Some rowR ->
    (is_Some (rowT !! a') <-> a' ∈ A) /\ (is_Some (rowR !! a') <-> a' ∈ A)).
  { intros a' Hs rowT rowR HT HR.
    destruct (Hrows s Hs) as (rowT' & rowR' & HT' & HR' & Hent).
    rewrite HT in HT'. rewrite HR in HR'.
    injection HT' as <-. injection HR' as <-.
    destruct (Hent a') as [Hin Hout].
    destruct (decide (a' ∈ A)) as [Ha|Ha].
    - destruct (Hin Ha) as (ns & rwd & _ & _ & -> & ->). split; by eauto.
    - destruct (Hout Ha) as [-> ->].
      split; (split; [by intros [? ?] | done]). }
  split; [|split; [|split; [|split]]].
  - split.
    + intros [row HT]. destruct Hdec as [?|Hn]; [done|].
      destruct (Hnone s Hn) as [HT' _]. congruence.
    + intros Hs. destruct (Hrows s Hs) as (rowT & _ & -> & _). by eauto.
  - split.
    + intros [row HR]. destruct Hdec as [?|Hn]; [done|].
      destruct (Hnone s Hn) as [_ HR']. congruence.
    + intros Hs. destruct (Hrows s Hs) as (_ & rowR & _ & -> & _). by eauto.
  - intros row HT. destruct Hdec as [Hs|Hn].
    + destruct (Hrows s Hs) as (_ & rowR & _ & HR & _).
      by apply (Hrow a Hs row rowR).
    + destruct (Hnone s Hn) as [HT' _]. congruence.
  - intros row HR. destruct Hdec as [Hs|Hn].
    + destruct (Hrows s Hs) as (rowT & _ & HT & _ & _).
      by apply (Hrow a Hs rowT row).
    + destruct (Hnone s Hn) as [_ HR']. congruence.
  - intros Hn. destruct (Hnone s Hn) as [HT _].
    unfold take_action, dict_getitem. by rewrite HT.
Qed.

Lemma tables_cover_states_and_actions_witness :
  (is_Some (T robot_4x4 !! 16) <-> valid_state (world robot_4x4) 16) /\
  (is_Some (R robot_4x4 !! 16) <-> valid_state (world robot_4x4) 16) /\
  (forall row, T robot_4x4 !! 16 = Some row ->
     (is_Some (row !! EAST) <-> EAST ∈ A)) /\
  (forall row, R robot_4x4 !! 16 = Some row ->
     (is_Some (row !! EAST) <-> EAST ∈ A)) /\
  (~ valid_state (world robot_4x4) 16 ->
   take_action robot_4x4 16 EAST = Raise (KeyError (IntKey 16))).
Proof.
  apply (tables_cover_states_and_actions None robot_4x4 16 EAST).
  exact robot_4x4_built.
Defined.

Lemma __init___lists w rw r :
  __init__ (Some (w, rw)) = Ok r ->
  Robot.S r = List.filter (fun s => negb (terminalb w s)) (range (nSp w)) /\
  Sp r = List.filter (terminalb w) (range (nSp w)) ++ Robot.S r /\
  S_start r = List.filter (startb w) (range (nSp w)).
Proof.
  unfold __init__. simpl.
  pose proof (for_inv (lists_inv w rw) (fun _ => True) init_state
                (range (nSp w))) as Hfor.
  assert (Hstep : forall done st x, x ∈ range (nSp w) -> lists_inv w rw done st ->
            match init_state st x with
            | Ok st' => lists_inv w rw (done ++ [x]) st'
            | Raise _ => True
            end).
  { intros done st x _ (Hw & Hrw & HS & HSp & HSs).
    pose proof (init_state_spec w rw st x Hw Hrw) as Hst.
    destruct (init_state st x) as [st'|e]; [|done].
    destruct Hst as (Hw' & Hrw' & _ & _ & b & c & Hb & Hc & HS' & HSp' & HSs').
    unfold lists_inv. rewrite !List.filter_app. simpl.
    unfold terminalb at 2 4, startb at 2. rewrite Hb, Hc.
    do 2 (split; [done|]). rewrite HS', HSp', HSs', HS, HSp, HSs.
    destruct b, c; simpl; by rewrite ?app_nil_r. }
  specialize (Hfor Hstep [] (Robot.mk w rw [] [] [] ∅ ∅)).
  destruct (for_ _ _ _) as [self|e]; simpl; [|discriminate].
  intros [= <-]. simpl.
  destruct Hfor as (_ & _ & HS & HSp & HSs); [done|].
  simpl in HS, HSp, HSs. by rewrite HS, HSp, HSs.
Qed.

Lemma elem_of_List_filter (p : Z -> bool) (l : list Z) (x : Z) :
  x ∈ List.filter p l <-> x ∈ l /\ p x = true.
Proof. rewrite !list_elem_of_In. apply List.filter_In. Qed.

Lemma NoDup_List_filter (p : Z -> bool) (l : list Z) :
  NoDup l -> NoDup (List.filter p l).
Proof. rewrite !NoDup_ListNoDup. apply List.NoDup_filter. Qed.

(** X2. In a constructed robot, S+ lists the terminal states first and the
    non-terminal states (exactly the list S) after them, each group in
    ascending order of the state index; S+ has no duplicates and is a
    permutation of [range (rows * cols)]. *)
Theorem Sp_is_terminal_states_then_S
    (wd : option (ndarray * gmap string float)) (r : Robot.t) :
  __init__ wd = Ok r ->
  Robot.S r
  = List.filter (fun s => negb (terminalb (world r) s))
      (range (nSp (world r))) /\
  Sp r
  = List.filter (terminalb (world r)) (range (nSp (world r))) ++ Robot.S r /\
  NoDup (Sp r) /\
  Sp r ≡ₚ range (nSp (world r)).
Proof.
  intros Hinit. apply __init___Some in Hinit.
  destruct (__init___lists _ _ _ Hinit) as (HS & HSp & _).
  do 2 (split; [done|]).
  assert (Hnd : NoDup (range (nSp (world r)))) by apply NoDup_seqZ.
  assert (Hnodup : NoDup (Sp r)).
  { rewrite HSp, HS. apply NoDup_app. split; [by apply NoDup_List_filter|].
    split; [|by apply NoDup_List_filter].
    intros x [_ Hx]%elem_of_List_filter [_ Hx']%elem_of_List_filter.
    rewrite Hx in Hx'. discriminate. }
  split; [done|].
  apply NoDup_Permutation; [done..|].
  intros x. rewrite HSp, HS, elem_of_app, !elem_of_List_filter.
  destruct (terminalb (world r) x); simpl; intuition congruence.
Qed.

Lemma Sp_is_terminal_states_then_S_witness :
  Robot.S robot_obstacles
  = List.filter (fun s => negb (terminalb (world robot_obstacles) s))
      (range (nSp (world robot_obstacles))) /\
  Sp robot_obstacles
  = List.filter (terminalb (world robot_obstacles))
      (range (nSp (world robot_obstacles))) ++ Robot.S robot_obstacles /\
  NoDup (Sp robot_obstacles) /\
  Sp robot_obstacles ≡ₚ range (nSp (world robot_obstacles)).
Proof.
  apply (Sp_is_terminal_states_then_S
           (Some (world robot_obstacles, rewards robot_obstacles))).
  exact robot_obstacles_built.
Defined.

(** In the world "4x4_world" the terminal state 15 comes first in S+. *)
Example Sp_of_4x4 :
  Sp robot_4x4 = [15; 0; 1; 2; 3; 4; 5; 6; 7; 8; 9; 10; 11; 12; 13; 14].
Proof. vm_compute. reflexivity. Qed.

(** ** Start states and [reset] *)

Lemma filter_seqZ_head (p : Z -> bool) (k : nat) :
  forall m s rest,
    List.filter p (seqZ m (Z.of_nat k)) = s :: rest ->
    forall x, x ∈ s :: rest -> s <= x.
Proof.
  induction k as [|k IH]; intros m s rest Hf x Hx; [discriminate|].
  rewrite seqZ_cons in Hf by lia.
  replace (Z.pred (Z.of_nat (Datatypes.S k))) with (Z.of_nat k) in Hf by lia.
  simpl in Hf. destruct (p m) eqn:Hp.
  - injection Hf as <- <-. apply elem_of_cons in Hx as [-> | Hx]; [lia|].
    apply elem_of_List_filter in Hx as [Hx _].
    apply elem_of_seqZ in Hx. lia.
  - by apply (IH (Z.succ m) s rest).
Qed.

Lemma start_state_label w s :
  startb w s = true <-> cell_label w s = Ok "S"%string.
Proof.
  unfold startb. split.
  - destruct (_is_start w s) as [b|] eqn:Hb; [|discriminate]. intros ->.
    apply _is_start_label in Hb as (l & Hl & Hb).
    symmetry in Hb. apply String.eqb_eq in Hb. by subst.
  - intros Hl. assert (Hb : _is_start w s = Ok true).
    { apply _is_start_label. by exists "S"%string. }
    by rewrite Hb.
Qed.

Lemma elem_of_S_start wd r s :
  __init__ wd = Ok r ->
  (s ∈ S_start r <-> cell_label (world r) s = Ok "S"%string).
Proof.
  intros Hinit. apply __init___Some in Hinit.
  destruct (__init___lists _ _ _ Hinit) as (_ & _ & HSs).
  rewrite HSs, elem_of_List_filter, elem_of_range, start_state_label.
  split; [tauto|]. intros Hl. split; [|done].
  by apply cell_label_Ok_inv in Hl.
Qed.

(** X3. In a constructed robot, [S_start] lists, in ascending order, exactly
    the states whose cell is labelled "S"; each of them is a non-terminal
    state, that is a member of S. *)
Theorem S_start_is_the_start_cells
    (wd : option (ndarray * gmap string float)) (r : Robot.t) (s : Z) :
  __init__ wd = Ok r ->
  S_start r = List.filter (startb (world r)) (range (nSp (world r))) /\
  (s ∈ S_start r <-> cell_label (world r) s = Ok "S"%string) /\
  (s ∈ S_start r -> s ∈ Robot.S r /\ is_terminal (world r) s = Ok false).
Proof.
  intros Hinit. pose proof (__init___built wd r Hinit) as Hbuilt.
  pose proof (elem_of_S_start wd r s Hinit) as Hiff.
  apply __init___Some in Hinit.
  destruct (__init___lists _ _ _ Hinit) as (_ & _ & HSs).
  split; [done|].
  split; [done|]. intros Hs. apply Hiff in Hs.
  destruct Hbuilt as (_ & _ & _ & _ & HS & _).
  assert (Hterm : is_terminal (world r) s = Ok false).
  { apply is_terminal_label. by exists "S"%string. }
  split; [|done]. apply HS. split; [|done]. by apply cell_label_Ok_inv in Hs.
Qed.

Lemma S_start_is_the_start_cells_witness :
  S_start robot_obstacles
  = List.filter (startb (world robot_obstacles))
      (range (nSp (world robot_obstacles))) /\
  (10 ∈ S_start robot_obstacles <->
   cell_label (world robot_obstacles) 10 = Ok "S"%string) /\
  (10 ∈ S_start robot_obstacles ->
   10 ∈ Robot.S robot_obstacles /\
   is_terminal (world robot_obstacles) 10 = Ok false).
Proof.
  apply (S_start_is_the_start_cells
           (Some (world robot_obstacles, rewards robot_obstacles))).
  exact robot_obstacles_built.
Defined.

(** X4. On a constructed robot, [reset ()] without a random draw returns
    the state of lowest index whose cell is labelled "S", and raises
    [IndexError] exactly when no cell of the grid is labelled "S". *)
Theorem reset_returns_first_start_state
    (wd : option (ndarray * gmap string float)) (r : Robot.t) (draw : nat) :
  __init__ wd = Ok r ->
  (forall s, reset r false draw = Ok s <->
     cell_label (world r) s = Ok "S"%string /\
     forall s', cell_label (world r) s' = Ok "S"%string -> s <= s') /\
  (reset r false draw = Raise IndexError <->
     forall s, cell_label (world r) s <> Ok "S"%string).
Proof.
  intros Hinit.
  assert (Hmem : forall s,
            s ∈ S_start r <-> cell_label (world r) s = Ok "S"%string).
  { intros s. by apply (elem_of_S_start wd). }
  apply __init___Some in Hinit.
  destruct (__init___lists _ _ _ Hinit) as (_ & _ & HSs).
  assert (Hn : nSp (world r) = Z.of_nat (Z.to_nat (nSp (world r)))).
  { unfold nSp, MAX_X, MAX_Y. lia. }
  unfold reset. destruct (S_start r) as [|s0 rest] eqn:Hstart.
  - split.
    + intros s. split; [discriminate|]. intros [Hl _].
      apply Hmem in Hl. by apply elem_of_nil in Hl.
    + split; [|done]. intros _ s Hl. apply Hmem in Hl. by apply elem_of_nil in Hl.
  - assert (Hleast : forall x, x ∈ s0 :: rest -> s0 <= x).
    { unfold range in HSs. rewrite Hn in HSs. symmetry in HSs.
      by apply (filter_seqZ_head _ _ _ _ _ HSs). }
    split.
    + intros s. split.
      * intros [= <-]. split; [apply Hmem; by left|].
        intros s' Hl. by apply Hleast, Hmem.
      * intros [Hl Hmin]. f_equal.
        assert (s0 <= s) by (by apply Hleast, Hmem).
        assert (s <= s0) by (apply Hmin, Hmem; by left). lia.
    + split; [discriminate|]. intros Hno. exfalso.
      apply (Hno s0), Hmem. by left.
Qed.

Lemma reset_returns_first_start_state_witness :
  (forall s, reset robot_obstacles false 0 = Ok s <->
     cell_label (world robot_obstacles) s = Ok "S"%string /\
     forall s', cell_label (world robot_obstacles) s' = Ok "S"%string ->
                s <= s') /\
  (reset robot_obstacles false 0 = Raise IndexError <->
     forall s, cell_label (world robot_obstacles) s <> Ok "S"%string).
Proof.
  apply (reset_returns_first_start_state
           (Some (world robot_obstacles, rewards robot_obstacles))).
  exact robot_obstacles_built.
Defined.

(** X5. On a constructed robot, [reset (True)] returns a member of S, that
    is some non-terminal state of the world (a state on an obstacle cell
    too, as S contains those), every member of S is returned for some draw
    of the generator, and the call raises [ValueError] exactly when S is
    empty, that is when no state of the world is non-terminal. *)
Theorem reset_random_draws_from_S
    (wd : option (ndarray * gmap string float)) (r : Robot.t) :
  __init__ wd = Ok r ->
  (forall draw s, reset r true draw = Ok s ->
     s ∈ Robot.S r /\ is_terminal (world r) s = Ok false) /\
  (forall s, s ∈ Robot.S r -> exists draw, reset r true draw = Ok s) /\
  (forall draw,
     (exists msg, reset r true draw = Raise (ValueError msg)) <->
     forall s, valid_state (world r) s -> is_terminal (world r) s <> Ok false).
Proof.
  intros Hinit.
  pose proof (__init___built wd r Hinit) as (_ & _ & _ & _ & HS & _).
  unfold reset. destruct (Robot.S r) as [|s0 rest] eqn:HSr.
  - split; [discriminate|]. split; [by intros s ?%elem_of_nil|].
    intros draw. split; [|by eauto].
    intros _ s Hs Ht. assert (Hin : s ∈ []) by (by apply HS).
    by apply elem_of_nil in Hin.
  - assert (Hlen : (0 < length (s0 :: rest))%nat) by (simpl; lia).
    split; [|split].
    + intros draw s [= <-].
      assert (Hin : nth (draw mod length (s0 :: rest)) (s0 :: rest) s0
                    ∈ s0 :: rest).
      { apply list_elem_of_In, nth_In, Nat.mod_upper_bound. lia. }
      split; [done|]. by apply HS in Hin as [_ ?].
    + intros s Hs. apply list_elem_of_In in Hs.
      destruct (In_nth _ _ s0 Hs) as (n & Hn & Hnth).
      exists n. by rewrite Nat.mod_small by done; rewrite Hnth.
    + intros draw. split; [by intros [? ?]|].
      intros Hall. exfalso. assert (Hin : s0 ∈ s0 :: rest) by (by left).
      apply HS in Hin as [Hv Ht]. by apply (Hall s0).
Qed.

Lemma reset_random_draws_from_S_witness :
  (forall draw s, reset robot_obstacles true draw = Ok s ->
     s ∈ Robot.S robot_obstacles /\
     is_terminal (world robot_obstacles) s = Ok false) /\
  (forall s, s ∈ Robot.S robot_obstacles ->
     exists draw, reset robot_obstacles true draw = Ok s) /\
  (forall draw,
     (exists msg, reset robot_obstacles true draw = Raise (ValueError msg)) <->
     forall s, valid_state (world robot_obstacles) s ->
               is_terminal (world robot_obstacles) s <> Ok false).
Proof.
  apply (reset_random_draws_from_S
           (Some (world robot_obstacles, rewards robot_obstacles))).
  exact robot_obstacles_built.
Defined.

(** The draw 7 on the world "obstacles" puts the robot on an obstacle. *)
Example reset_onto_obstacle :
  reset robot_obstacles true 7 = Ok 7 /\
  cell_label (world robot_obstacles) 7 = Ok "o"%string.
Proof. vm_compute. done. Qed.

(** ** The geometry of the transitions *)

Lemma target_moves xy a : a ∈ A -> target xy a <> xy.
Proof.
  intros Ha. destruct xy as [x y]. unfold target.
  apply elem_of_A in Ha as [-> | [-> | [-> | ->]]]; simpl; intros [= ? ?]; lia.
Qed.

Lemma target_opposite xy a : a ∈ A -> target (target xy a) (opposite a) = xy.
Proof.
  intros Ha. destruct xy as [x y]. unfold target.
  apply elem_of_A in Ha as [-> | [-> | [-> | ->]]]; simpl; f_equal; lia.
Qed.

Lemma opposite_in_A a : a ∈ A -> opposite a ∈ A.
Proof.
  intros Ha. apply elem_of_A.
  apply elem_of_A in Ha as [-> | [-> | [-> | ->]]]; simpl; tauto.
Qed.

Lemma _state2coord_of_coord w x y :
  in_grid w (x, y) -> _state2coord w (y * MAX_X w + x) = Ok (x, y).
Proof.
  intros Hin. pose proof Hin as [Hx Hy]. simpl in *.
  rewrite _state2coord_Ok by (by apply coord_state_in_range).
  fold (coords w (y * MAX_X w + x)). by rewrite coords_of_coord.
Qed.

(** X6. On a constructed robot, [take_action] from a state of S+ with an
    action of the action set follows the geometry of the grid and nothing
    else: the robot stays where it is when the target coordinate is outside
    the grid or on an obstacle, and otherwise lands on the state whose
    coordinates are the target (it never wraps around an edge of the
    grid). *)
Theorem take_action_is_the_geometric_move
    (wd : option (ndarray * gmap string float)) (r : Robot.t) (s a : Z)
    (xy : Z * Z) :
  __init__ wd = Ok r ->
  a ∈ A ->
  _state2coord (world r) s = Ok xy ->
  exists ns rwd,
    take_action r s a = Ok (ns, rwd) /\
    ((blocked (world r) (target xy a) /\ ns = s) \/
     (~ blocked (world r) (target xy a) /\ ns <> s /\
      _state2coord (world r) ns = Ok (target xy a) /\
      _coord2state (world r) (target xy a) = Ok ns)).
Proof.
  intros Hinit Ha Hxy.
  apply _state2coord_Ok_inv in Hxy as [Hs ->].
  pose proof (__init___built wd r Hinit) as Hbuilt.
  destruct (take_action_built _ _ r s a Hbuilt Hs Ha)
    as (ns & rwd & row & Hta & _ & _ & Hns & _).
  exists ns, rwd. split; [done|].
  apply _update_state_cases in Hns. cbv zeta in Hns.
  destruct Hns as [[Hb ->] | (Hin & (l & Hl & Hne) & ->)]; [by left|].
  right. destruct (target (coords (world r) s) a) as [tx ty] eqn:Ht.
  simpl in *.
  assert (Hcoord : _state2coord (world r) (ty * MAX_X (world r) + tx)
                   = Ok (tx, ty)) by (by apply _state2coord_of_coord).
  split; [|split; [|split]].
  - intros [Hout | Hobs]; [done|]. simpl in Hobs. congruence.
  - intros Heq. rewrite Heq in Hcoord.
    rewrite _state2coord_Ok in Hcoord by done.
    injection Hcoord as Hx Hy.
    apply (target_moves (coords (world r) s) a Ha).
    rewrite Ht. unfold coords. by rewrite Hx, Hy.
  - done.
  - destruct Hin as [? ?]. by apply _coord2state_Ok.
Qed.

Lemma take_action_is_the_geometric_move_witness :
  exists ns rwd,
    take_action robot_obstacles 6 NORTH = Ok (ns, rwd) /\
    ((blocked (world robot_obstacles) (target (0, 1) NORTH) /\ ns = 6) \/
     (~ blocked (world robot_obstacles) (target (0, 1) NORTH) /\ ns <> 6 /\
      _state2coord (world robot_obstacles) ns = Ok (target (0, 1) NORTH) /\
      _coord2state (world robot_obstacles) (target (0, 1) NORTH) = Ok ns)).
Proof.
  apply (take_action_is_the_geometric_move
           (Some (world robot_obstacles, rewards robot_obstacles))
           robot_obstacles 6 NORTH (0, 1)).
  - exact robot_obstacles_built.
  - vm_compute. apply list_elem_of_In. simpl. tauto.
  - vm_compute. reflexivity.
Defined.

(** Moving EAST from the last cell of a row is blocked: the robot does not
    continue on the first cell of the next row. *)
Example no_wrap_at_the_east_edge :
  take_action robot_4x4 3 EAST = Ok (3, (-1)%float) /\
  take_action robot_4x4 4 WEST = Ok (4, (-1)%float).
Proof. vm_compute. done. Qed.

(** X7. On a constructed robot, a move that changes the state can be
    undone, if the cell left is not an obstacle: when [take_action (s, a)]
    returns a state [ns] other than [s], [take_action (ns, opposite a)]
    returns [s], with the reward of the cell of [s]. *)
Theorem moves_are_reversible
    (wd : option (ndarray * gmap string float)) (r : Robot.t)
    (s a ns : Z) (rwd : float) (l : string) :
  __init__ wd = Ok r ->
  take_action r s a = Ok (ns, rwd) ->
  ns <> s ->
  cell_label (world r) s = Ok l ->
  l <> "o"%string ->
  exists rwd',
    take_action r ns (opposite a) = Ok (s, rwd') /\
    rewards r !! l = Some rwd'.
Proof.
  intros Hinit Hta Hne Hl Hlo.
  pose proof (__init___built wd r Hinit) as Hbuilt.
  destruct (take_action_Ok_inv _ _ r s a ns rwd Hbuilt Hta)
    as (Hs & Ha & Hns & _).
  pose proof (_update_state_closed _ _ _ _ Hns) as [Hv _].
  apply _update_state_cases in Hns. cbv zeta in Hns.
  destruct Hns as [[_ ->] | (Hin & _ & Hnse)]; [done|].
  destruct (target (coords (world r) s) a) as [tx ty] eqn:Ht. simpl in Hnse.
  assert (Hback : _update_state (world r) ns (opposite a) = Ok s).
  { rewrite _update_state_eq by (done || by apply opposite_in_A).
    rewrite Hnse, coords_of_coord by done. rewrite <- Ht.
    rewrite target_opposite by done. cbv zeta.
    assert (Hsin : in_grid (world r) (coords (world r) s))
      by (by apply state_coord_in_grid).
    pose proof (proj2 (_is_outside_at_false _ _) Hsin) as Hout. rewrite Hout.
    pose proof (coords_decompose (world r) s Hs) as Hdec.
    rewrite Hdec in Hl at 1.
    destruct (coords (world r) s) as [x y] eqn:Hc. simpl in *.
    rewrite cell_label_coord in Hl by done. rewrite Hl. simpl.
    apply String.eqb_neq in Hlo. rewrite Hlo.
    destruct Hsin as [? ?]. rewrite _coord2state_Ok by done. by rewrite <- Hdec. }
  destruct (take_action_built _ _ r ns (opposite a) Hbuilt Hv
              (opposite_in_A a Ha))
    as (ns' & rwd' & row & Hta' & _ & _ & Hns' & Hrwd').
  rewrite Hback in Hns'. injection Hns' as <-.
  apply cell_reward_Ok_inv in Hrwd' as (l' & Hl' & Hrw').
  exists rwd'. split; [done|]. congruence.
Qed.

Lemma moves_are_reversible_witness :
  exists rwd',
    take_action robot_obstacles 9 (opposite EAST) = Ok (8, rwd') /\
    rewards robot_obstacles !! "."%string = Some rwd'.
Proof.
  apply (moves_are_reversible
           (Some (world robot_obstacles, rewards robot_obstacles))
           robot_obstacles 8 EAST 9 (-1)%float ".").
  - exact robot_obstacles_built.
  - vm_compute. reflexivity.
  - discriminate.
  - vm_compute. reflexivity.
  - discriminate.
Defined.

(** A move out of an obstacle cell cannot be undone: from the obstacle at
    state 7 of the world "obstacles" NORTH leads to state 1, and SOUTH from
    there is blocked. *)
Example move_out_of_obstacle :
  take_action robot_obstacles 7 NORTH = Ok (1, (-1)%float) /\
  take_action robot_obstacles 1 SOUTH = Ok (1, (-1)%float).
Proof. vm_compute. done. Qed.

(** ** When the constructor succeeds *)

Lemma cell_reward_Raise w rw s e :
  numpy.wf w -> valid_state w s ->
  cell_reward w rw s = Raise e -> grid_label_missing w rw e.
Proof.
  intros Hwf Hs. unfold cell_reward. rewrite cell_label_valid by done.
  destruct (data w !! Z.to_nat s) as [l|] eqn:Hl; simpl.
  - unfold dict_getitem_str. destruct (rw !! l) eqn:Hrw; [discriminate|].
    intros [= <-]. exists l. split; [done|]. split; [|done].
    apply list_elem_of_lookup. eauto.
  - apply lookup_ge_None in Hl. exfalso.
    unfold numpy.wf in Hwf. unfold valid_state, nSp, MAX_X, MAX_Y in Hs. nia.
Qed.

Lemma init_action_Raise w rw state self action e :
  world self = w -> rewards self = rw ->
  numpy.wf w -> valid_state w state -> action ∈ A ->
  is_Some (T self !! state) -> is_Some (R self !! state) ->
  init_action state self action = Raise e -> grid_label_missing w rw e.
Proof.
  intros Hw Hrw Hwf Hs Ha [rowT HT] [rowR HR]. unfold init_action.
  rewrite Hw, Hrw.
  destruct (_update_state_wf w state action Hwf Hs Ha) as [ns Hns].
  rewrite Hns. simpl.
  pose proof (_update_state_closed _ _ _ _ Hns) as [Hv _].
  pose proof (cell_reward_Raise w rw ns e Hwf Hv) as Hcr.
  unfold cell_reward, cell_label in Hcr.
  rewrite _state2coord_Ok in Hcr |- * by done. simpl in Hcr |- *.
  destruct (getitem w _ _) as [label|e'] eqn:Hg; simpl in Hcr |- *.
  2:{ intros [= <-]. by apply Hcr. }
  destruct (dict_getitem_str rw label) as [rwd|e'] eqn:Hd; simpl.
  2:{ intros [= <-]. by apply Hcr. }
  unfold dict_setitem2, dict_getitem. rewrite HT. simpl. rewrite HR. simpl.
  discriminate.
Qed.

Lemma init_actions_Raise w rw state self0 e :
  world self0 = w -> rewards self0 = rw ->
  numpy.wf w -> valid_state w state ->
  is_Some (T self0 !! state) -> is_Some (R self0 !! state) ->
  for_ A (init_action state) self0 = Raise e -> grid_label_missing w rw e.
Proof.
  intros Hw Hrw Hwf Hs HT HR Hraise.
  pose proof (for_inv (rows_exist w rw state) (grid_label_missing w rw)
                (init_action state) A) as Hfor.
  assert (Hstep : forall done st x, x ∈ A -> rows_exist w rw state done st ->
            match init_action state st x with
            | Ok st' => rows_exist w rw state (done ++ [x]) st'
            | Raise e => grid_label_missing w rw e
            end).
  { intros done st x Hx (Hw' & Hrw' & HT' & HR').
    pose proof (init_action_spec w rw state st x Hw' Hrw') as Hspec.
    destruct (init_action state st x) as [st'|e'] eqn:Hact.
    - destruct Hspec as (ns & rwd & rowT & rowR & _ & _ & _ & _ & ->).
      unfold rows_exist. simpl. rewrite !lookup_insert_eq. by eauto.
    - by apply (init_action_Raise w rw state st x e'). }
  specialize (Hfor Hstep [] self0). rewrite Hraise in Hfor.
  by apply Hfor.
Qed.

Lemma init_state_Raise w rw self state e :
  world self = w -> rewards self = rw ->
  numpy.wf w -> valid_state w state ->
  init_state self state = Raise e -> grid_label_missing w rw e.
Proof.
  intros Hw Hrw Hwf Hs. unfold init_state. simpl. rewrite Hw.
  destruct (is_terminal_wf w state Hwf Hs) as [b Hb]. rewrite Hb. simpl.
  assert (Hloop : forall self0,
    world self0 = w -> rewards self0 = rw ->
    T self0 !! state = Some ∅ -> R self0 !! state = Some ∅ ->
    (self' ← for_ A (init_action state) self0;
     start ← _is_start (world self') state;
     Ok (if start : bool
         then set_S_start self' (S_start self' ++ [state]) else self'))
    = Raise e -> grid_label_missing w rw e).
  { intros self0 Hw0 Hrw0 HT0 HR0.
    pose proof (init_actions_spec w rw state self0 Hw0 Hrw0 HT0 HR0) as Hspec.
    destruct (for_ A (init_action state) self0) as [self'|e'] eqn:Hfor; simpl.
    - destruct Hspec as (Hw' & _). rewrite Hw'.
      destruct (_is_start_wf w state Hwf Hs) as [c Hc]. rewrite Hc. simpl.
      discriminate.
    - intros [= <-].
      apply (init_actions_Raise w rw state self0 e');
        rewrite ?HT0, ?HR0; by eauto. }
  destruct b; apply Hloop; simpl; try done; by rewrite lookup_insert_eq.
Qed.

Lemma __init___Raise_grid w rw e :
  numpy.wf w -> __init__ (Some (w, rw)) = Raise e -> grid_label_missing w rw e.
Proof.
  intros Hwf. unfold __init__. simpl.
  pose proof (for_inv (states_inv w rw) (grid_label_missing w rw) init_state
                (range (nSp w))) as Hfor.
  assert (Hstep : forall done st x, x ∈ range (nSp w) -> states_inv w rw done st ->
            match init_state st x with
            | Ok st' => states_inv w rw (done ++ [x]) st'
            | Raise e => grid_label_missing w rw e
            end).
  { intros done st x Hx Hinv.
    pose proof (init_state_inv w rw done st x Hinv) as Hold.
    destruct (init_state st x) as [st'|e'] eqn:Hst; [done|].
    destruct Hinv as (Hw & Hrw & _).
    apply (init_state_Raise w rw st x e'); try done.
    by apply elem_of_range. }
  specialize (Hfor Hstep [] (Robot.mk w rw [] [] [] ∅ ∅)).
  destruct (for_ _ _ _) as [self|e'] eqn:Hloop; simpl; [discriminate|].
  intros [= <-]. apply Hfor. unfold states_inv. simpl.
  do 2 (split; [done|]).
  split; [by intros s ?%elem_of_nil|]. split; [done|].
  split; [by intros s ?%elem_of_nil|].
  split; [|split]; intros s; rewrite !elem_of_nil; tauto.
Qed.

(** X8. On a well-formed grid, the constructor can only fail with a
    [KeyError] for a label that occurs in the grid and has no entry in the
    reward mapping; so it returns a robot whenever every label of the grid
    has a reward. *)
Theorem constructor_succeeds_when_labels_rewarded
    (w : ndarray) (rw : gmap string float) :
  numpy.wf w ->
  (forall e, __init__ (Some (w, rw)) = Raise e -> grid_label_missing w rw e) /\
  (all_labels_rewarded w rw -> exists r, __init__ (Some (w, rw)) = Ok r).
Proof.
  intros Hwf. split; [intros e; by apply __init___Raise_grid|].
  intros Hall. destruct (__init__ (Some (w, rw))) as [r|e] eqn:Hinit; [by eauto|].
  apply __init___Raise_grid in Hinit as (l & _ & Hl & Hrw); [|done].
  destruct (Hall l Hl) as [v Hv]. congruence.
Qed.

Lemma constructor_succeeds_when_labels_rewarded_witness :
  (forall e,
     __init__ (Some (numpy.array [["S"; "?"]; ["."; "T"]]%string, rewards_hole))
     = Raise e ->
     grid_label_missing (numpy.array [["S"; "?"]; ["."; "T"]]%string)
       rewards_hole e) /\
  (all_labels_rewarded (numpy.array [["S"; "?"]; ["."; "T"]]%string)
     rewards_hole ->
   exists r,
     __init__ (Some (numpy.array [["S"; "?"]; ["."; "T"]]%string, rewards_hole))
     = Ok r).
Proof.
  apply (constructor_succeeds_when_labels_rewarded
           (numpy.array [["S"; "?"]; ["."; "T"]]%string) rewards_hole).
  reflexivity.
Defined.

(** The label "?" has no reward, and the constructor names it. *)
Example constructor_names_the_label :
  __init__ (Some (numpy.array [["S"; "?"]; ["."; "T"]]%string, rewards_hole))
  = Raise (KeyError (StrKey "?")).
Proof. vm_compute. reflexivity. Qed.

(** ** Which actions are accepted *)




(** ** What the learning loop does to the table *)





Section LearningFacts.
Context {G : Type}.
Variable td_value :
  list (list float) -> Z -> Z -> Z -> float -> float -> Z -> float.
Variable robot : Robot.t.
Variable policy : G -> Z -> Z * G.
Variable init_state : Z.
Variable discount_factor : float.
Variable num_iterations : Z.

Hypothesis robot_built : built_from (world robot) (rewards robot) robot.




End LearningFacts.




(** ** The random policy *)




(** ** The start of the greedy path *)

(** X12. On a constructed robot whose grid has no cell labelled "S",
    [get_optimal_path] raises [IndexError] at [robot.S_start[0]], whatever
    the table and the cap. *)
Theorem get_optimal_path_needs_a_start_cell
    (wd : option (ndarray * gmap string float)) (r : Robot.t)
    (cap : nat) (Q : list (list float)) :
  __init__ wd = Ok r ->
  (forall s, cell_label (world r) s <> Ok "S"%string) ->
  get_optimal_path cap r Q = Raise IndexError.
Proof.
  intros Hinit Hno. unfold get_optimal_path.
  destruct (S_start r) as [|s0 rest] eqn:Hstart; [done|].
  exfalso. apply (Hno s0). apply (elem_of_S_start wd r s0 Hinit).
  rewrite Hstart. by left.
Qed.

Lemma robot_no_start_built :
  __init__ (Some (numpy.array [["."; "T"]]%string, rewards_hole))
  = Ok robot_no_start.
Proof. vm_compute. reflexivity. Defined.

Lemma robot_no_start_labels s :
  cell_label (world robot_no_start) s <> Ok "S"%string.
Proof.
  intros H. pose proof (cell_label_Ok_inv _ _ _ H) as Hv.
  unfold valid_state in Hv.
  change (nSp (world robot_no_start)) with 2 in Hv.
  assert (s = 0 \/ s = 1) as [-> | ->] by lia; vm_compute in H; discriminate.
Defined.

Lemma get_optimal_path_needs_a_start_cell_witness :
  get_optimal_path 100 robot_no_start (zeros 2 4) = Raise IndexError.
Proof.
  apply (get_optimal_path_needs_a_start_cell
           (Some (numpy.array [["."; "T"]]%string, rewards_hole))
           robot_no_start 100 (zeros 2 4)).
  - exact robot_no_start_built.
  - exact robot_no_start_labels.
Defined.

(** ** The tests on states *)



(** ** The catalogue of example worlds *)

(** X14. [_create_example_world] returns a world exactly for the four names
    of the catalogue; each of these worlds is well formed, is accepted by
    the constructor, and has exactly one start state and one terminal
    state. *)
Theorem example_worlds_are_constructible (type : string) :
  ((exists wd, _create_example_world type = Ok wd) <-> type ∈ example_worlds) /\
  (type ∈ example_worlds ->
   exists w rw,
     _create_example_world type = Ok (w, rw) /\
     numpy.wf w /\ all_labels_rewarded w rw /\
     exists r s0 t,
       __init__ (Some (w, rw)) = Ok r /\
       S_start r = [s0] /\ Sp r = t :: Robot.S r).
Proof.
  split.
  - split.
    + intros [wd Hwd]. destruct (decide (type ∈ example_worlds)) as [?|Hn]; [done|].
      rewrite _create_example_world_unknown in Hwd by done. discriminate.
    + unfold example_worlds. rewrite !elem_of_cons, elem_of_nil.
      intros [-> | [-> | [-> | [-> | []]]]]; by eexists.
  - unfold example_worlds. rewrite !elem_of_cons, elem_of_nil.
    assert (Hall : forall (w : ndarray) (rw : gmap string float),
              forallb (fun l => bool_decide (is_Some (rw !! l))) (data w) = true ->
              all_labels_rewarded w rw).
    { intros w rw Hb l Hl. rewrite forallb_forall in Hb.
      apply list_elem_of_In in Hl. apply Hb in Hl.
      by apply bool_decide_eq_true in Hl. }
    intros [-> | [-> | [-> | [-> | []]]]];
      eexists _, _;
      (split; [reflexivity|]); (split; [reflexivity|]);
      (split; [apply Hall; vm_compute; reflexivity|]);
      match goal with
      | |- exists r s0 t, ?init = _ /\ _ =>
          exists (robot_of init), (hd 0 (S_start (robot_of init))),
                 (hd 0 (Sp (robot_of init)))
      end;
      (split; [|split]); vm_compute; reflexivity.
Qed.

Lemma example_worlds_are_constructible_witness :
  exists w rw,
    _create_example_world "6x4_world_2" = Ok (w, rw) /\
    numpy.wf w /\ all_labels_rewarded w rw /\
    exists r s0 t,
      __init__ (Some (w, rw)) = Ok r /\
      S_start r = [s0] /\ Sp r = t :: Robot.S r.
Proof.
  apply (proj2 (example_worlds_are_constructible "6x4_world_2")).
  vm_compute. apply list_elem_of_In. simpl. tauto.
Defined.
